(** * The adaptive frame cache of VapourSynth (src/core/cachefilter.cpp)

    A shallow embedding of [VSCache] (the recency cache with its ghost
    tail and its statistics-driven resizing) and of [cacheGetframe] (the
    two-phase request scheduler), followed by the properties of the
    specification that are stated about them. *)

From Stdlib Require Import ZArith List Bool Lia.
Import ListNotations.
Open Scope Z_scope.

(** ** The C++ [int] and [intptr_t]

    Integers are carried as [Z]; every arithmetic operation of the source
    is followed by the two's-complement wrap-around of its type. *)

Module Int.

Definition int_min : Z := -2147483648.
Definition int_max : Z := 2147483647.

Definition wrap (z : Z) : Z := (z + 2147483648) mod 4294967296 - 2147483648.

Definition add (a b : Z) : Z := wrap (a + b).
Definition sub (a b : Z) : Z := wrap (a - b).
Definition mul (a b : Z) : Z := wrap (a * b).

Definition in_range (z : Z) : Prop := int_min <= z <= int_max.

(** [intptr_t] of the 64-bit targets. *)
Definition wrap64 (z : Z) : Z :=
  (z + 9223372036854775808) mod 18446744073709551616 - 9223372036854775808.

Definition add64 (a b : Z) : Z := wrap64 (a + b).

End Int.

(** ** Data model *)

(** A frame is an opaque object of the host; [PVSFrameRef] is the smart
    pointer to it, [None] being the null pointer.  Reference counts are
    not part of the model. *)
Definition VSFrame : Type := Z.
Definition PVSFrameRef : Type := option VSFrame.

(** A node of the cache.  The nodes live in [hash] under their key, so a
    pointer to a node is represented by that key, [None] being null. *)
Record Node : Type := mkNode { key : Z; frame : PVSFrameRef }.

Definition NodePtr : Type := option Z.

Inductive CacheAction : Type := NoChange | Grow | Shrink | Clear.

(** [nodes] is the recency list as it is linked through [prevNode] and
    [nextNode], read from [first] to [last]; it holds exactly the nodes
    that [hash] owns. *)
Record VSCache : Type := mkCache {
  nodes : list Node;
  weakpoint : NodePtr;
  maxSize : Z;
  currentSize : Z;
  maxHistorySize : Z;
  historySize : Z;
  fixedSize : bool;
  hits : Z;
  nearMiss : Z;
  farMiss : Z
}.

Definition set_nodes (l : list Node) (c : VSCache) : VSCache :=
  mkCache l (weakpoint c) (maxSize c) (currentSize c) (maxHistorySize c)
          (historySize c) (fixedSize c) (hits c) (nearMiss c) (farMiss c).

Definition set_weakpoint (p : NodePtr) (c : VSCache) : VSCache :=
  mkCache (nodes c) p (maxSize c) (currentSize c) (maxHistorySize c)
          (historySize c) (fixedSize c) (hits c) (nearMiss c) (farMiss c).

Definition set_maxSize (m : Z) (c : VSCache) : VSCache :=
  mkCache (nodes c) (weakpoint c) m (currentSize c) (maxHistorySize c)
          (historySize c) (fixedSize c) (hits c) (nearMiss c) (farMiss c).

Definition set_currentSize (n : Z) (c : VSCache) : VSCache :=
  mkCache (nodes c) (weakpoint c) (maxSize c) n (maxHistorySize c)
          (historySize c) (fixedSize c) (hits c) (nearMiss c) (farMiss c).

Definition set_historySize (n : Z) (c : VSCache) : VSCache :=
  mkCache (nodes c) (weakpoint c) (maxSize c) (currentSize c)
          (maxHistorySize c) n (fixedSize c) (hits c) (nearMiss c) (farMiss c).

Definition set_stats (h nm fm : Z) (c : VSCache) : VSCache :=
  mkCache (nodes c) (weakpoint c) (maxSize c) (currentSize c)
          (maxHistorySize c) (historySize c) (fixedSize c) h nm fm.

(** ** Links of the recency list *)

Definition has_frame (n : Node) : bool :=
  match frame n with Some _ => true | None => false end.

(** [hash.find(key)] *)
Fixpoint find_node (k : Z) (l : list Node) : option Node :=
  match l with
  | [] => None
  | n :: tl => if key n =? k then Some n else find_node k tl
  end.

(** [last]; [first] is the head of the list *)
Fixpoint lastNode (l : list Node) : option Node :=
  match l with
  | [] => None
  | [n] => Some n
  | _ :: tl => lastNode tl
  end.

(** [p->prevNode] for the node [p] of key [k] *)
Fixpoint prevNode (l : list Node) (k : Z) : NodePtr :=
  match l with
  | a :: (b :: _) as tl => if key b =? k then Some (key a) else prevNode tl k
  | _ => None
  end.

(** [p->nextNode] for the node [p] of key [k] *)
Fixpoint nextNode (l : list Node) (k : Z) : NodePtr :=
  match l with
  | [] => None
  | a :: tl => if key a =? k then option_map key (head tl) else nextNode tl k
  end.

(** [p->frame.reset()] for the node [p] of key [k] *)
Definition reset_frame (k : Z) (l : list Node) : list Node :=
  map (fun n => if key n =? k then mkNode (key n) None else n) l.

(** the list without the node of key [k] *)
Definition remove_node (k : Z) (l : list Node) : list Node :=
  filter (fun n => negb (key n =? k)) l.

(** ** Statistics and the resize policy *)

(** Modelled from the spec: [VSCache::clearStats] is declared in
    cachefilter.h, which is not part of the sources; the spec gives it as
    "resets them (hits=nearMisses=farMisses=0)". *)
Definition clearStats (c : VSCache) : VSCache := set_stats 0 0 0 c.

Definition recommendSize (c : VSCache) : CacheAction * VSCache :=
  let total := Int.add (Int.add (hits c) (nearMiss c)) (farMiss c) in
  if total =? 0 then (Clear, c)
  else if total <? 30 then (NoChange, c)
  else
    let shrink := (nearMiss c =? 0) && (hits c =? 0) in
    let grow := Int.mul (nearMiss c) 20 >=? total in
    if grow then (Grow, clearStats c)
    else if shrink then (Shrink, clearStats c)
    else (NoChange, clearStats c).

(** ** Structural operations of the cache *)

(** Modelled from the spec: [VSCache::unlink] is declared in cachefilter.h,
    which is not part of the sources.  The spec: the entry is unlinked and
    destroyed "from either region, adjusting the relevant counter"; the
    boundary keeps marking the split between the two regions, so when the
    entry unlinked is the boundary itself the boundary moves to the next
    entry towards the tail. *)
Definition unlink (n : Node) (c : VSCache) : VSCache :=
  let wp := match weakpoint c with
            | Some k => if k =? key n then nextNode (nodes c) k else Some k
            | None => None
            end in
  let c1 := set_nodes (remove_node (key n) (nodes c)) (set_weakpoint wp c) in
  if has_frame n
  then set_currentSize (Int.sub (currentSize c1) 1) c1
  else set_historySize (Int.sub (historySize c1) 1) c1.

(** Modelled from the spec: [VSCache::clear] is declared in cachefilter.h.
    The spec: "destroys all entries, resets counters and boundary to empty;
    keeps configured capacities". *)
Definition clear (c : VSCache) : VSCache :=
  mkCache [] None (maxSize c) 0 (maxHistorySize c) 0 (fixedSize c) 0 0 0.

(** The constructor: the three parameters are stored, then [clear()]. *)
Definition VSCache_new (maxSize maxHistorySize : Z) (fixedSize : bool) : VSCache :=
  clear (mkCache [] None maxSize 0 maxHistorySize 0 fixedSize 0 0 0).

Definition remove (k : Z) (c : VSCache) : bool * VSCache :=
  match find_node k (nodes c) with
  | None => (false, c)
  | Some n => (true, unlink n c)
  end.

(** One turn of the first loop of [trim]. *)
Definition trim_step (c : VSCache) : VSCache :=
  let wp := match weakpoint c with
            | None => option_map key (lastNode (nodes c))
            | Some k => prevNode (nodes c) k
            end in
  let l := match wp with
           | Some k => reset_frame k (nodes c)
           | None => nodes c
           end in
  let c1 := set_nodes l (set_weakpoint wp c) in
  let c2 := set_currentSize (Int.sub (currentSize c1) 1) c1 in
  set_historySize (Int.add (historySize c2) 1) c2.

(** [while (currentSize > max) ...] *)
Fixpoint trim_frames (fuel : nat) (max : Z) (c : VSCache) : VSCache :=
  match fuel with
  | O => c
  | S fuel' =>
      if currentSize c >? max then trim_frames fuel' max (trim_step c) else c
  end.

(** [while (last && historySize > maxHistory) unlink( *last )] *)
Fixpoint trim_history (fuel : nat) (maxHistory : Z) (c : VSCache) : VSCache :=
  match fuel with
  | O => c
  | S fuel' =>
      match lastNode (nodes c) with
      | Some n =>
          if historySize c >? maxHistory
          then trim_history fuel' maxHistory (unlink n c)
          else c
      | None => c
      end
  end.

(** The first loop turns [currentSize - max] times and the second one at
    most once per node; that both loops leave through their condition is
    proved below ([trim_frames_split], [trim_history_split]). *)
Definition trim (max maxHistory : Z) (c : VSCache) : VSCache :=
  let c1 := trim_frames (Z.to_nat (currentSize c - max)) max c in
  trim_history (length (nodes c1)) maxHistory c1.

(** [None] is a failed [assert]. *)
Definition insert (akey : Z) (aobject : PVSFrameRef) (c : VSCache)
  : option (bool * VSCache) :=
  match aobject with
  | None => None
  | Some _ =>
      if akey <? 0 then None
      else
        let c1 := snd (remove akey c) in
        let c2 := set_currentSize (Int.add (currentSize c1) 1)
                    (set_nodes (mkNode akey aobject :: nodes c1) c1) in
        Some (true, trim (maxSize c2) (maxHistorySize c2) c2)
  end.

(** Modelled from the spec: [VSCache::getMaxFrames] is declared in
    cachefilter.h.  The spec: the capacity that [adjustSize] reads and
    writes is "max live frames", [maxLive]. *)
Definition getMaxFrames (c : VSCache) : Z := maxSize c.

(** Modelled from the spec: [VSCache::setMaxFrames] is declared in
    cachefilter.h.  The spec writes the resize as an assignment to
    [maxLive] and asks for [liveCount <= maxLive] "after any completed
    mutation": the new capacity is stored and the cache trimmed to it. *)
Definition setMaxFrames (m : Z) (c : VSCache) : VSCache :=
  let c1 := set_maxSize m c in
  trim (maxSize c1) (maxHistorySize c1) c1.

(** Modelled from the spec: [VSCache::relink] is declared in
    cachefilter.h.  The spec (lookup): not found is a far miss; a live
    entry is promoted to the head and is a hit; a ghost entry is promoted
    to the head, stays without payload, and is a near miss. *)
Definition relink (k : Z) (c : VSCache) : PVSFrameRef * VSCache :=
  match find_node k (nodes c) with
  | None => (None, set_stats (hits c) (nearMiss c) (Int.add (farMiss c) 1) c)
  | Some n =>
      let c1 := set_nodes (n :: remove_node k (nodes c)) c in
      match frame n with
      | Some f => (Some f, set_stats (Int.add (hits c) 1) (nearMiss c) (farMiss c) c1)
      | None => (None, set_stats (hits c) (Int.add (nearMiss c) 1) (farMiss c) c1)
      end
  end.

Definition object (k : Z) (c : VSCache) : PVSFrameRef * VSCache := relink k c.

Definition adjustSize (needMemory : bool) (c : VSCache) : VSCache :=
  if negb (fixedSize c) then
    if negb needMemory then
      let (action, c1) := recommendSize c in
      match action with
      | Clear =>
          let c2 := clear c1 in
          setMaxFrames (Z.max (Int.sub (getMaxFrames c2) 2) 0) c2
      | Grow => setMaxFrames (Int.add (getMaxFrames c1) 2) c1
      | Shrink => setMaxFrames (Z.max (Int.sub (getMaxFrames c1) 1) 0) c1
      | NoChange => c1
      end
    else
      let (action, c1) := recommendSize c in
      match action with
      | Clear =>
          let c2 := clear c1 in
          setMaxFrames (Z.max (Int.sub (getMaxFrames c2) 2) 0) c2
      | Shrink => setMaxFrames (Z.max (Int.sub (getMaxFrames c1) 2) 0) c1
      | NoChange =>
          let c2 := if getMaxFrames c1 <=? 1 then clear c1 else c1 in
          setMaxFrames (Z.max (Int.sub (getMaxFrames c2) 1) 1) c2
      | Grow => c1
      end
  else c.

(** ** The request scheduler *)

(** The part of [CacheInstance] that [cacheGetframe] and
    [createCacheFilter] read and write; [clip], [node] and [core] are
    handles of the host. *)
Record CacheInstance : Type := mkInstance {
  cache : VSCache;
  lastN : Z;
  numThreads : Z;
  makeLinear : bool
}.

Definition set_cache (x : VSCache) (c : CacheInstance) : CacheInstance :=
  mkInstance x (lastN c) (numThreads c) (makeLinear c).

Definition set_lastN (n : Z) (c : CacheInstance) : CacheInstance :=
  mkInstance (cache c) n (numThreads c) (makeLinear c).

Definition set_numThreads (n : Z) (c : CacheInstance) : CacheInstance :=
  mkInstance (cache c) (lastN c) n (makeLinear c).

Definition set_makeLinear (b : bool) (c : CacheInstance) : CacheInstance :=
  mkInstance (cache c) (lastN c) (numThreads c) b.

Inductive ActivationReason : Type := arInitial | arAllFramesReady | arError.

(** The calls made to the host, in the order they are made. *)
Inductive HostCall : Type :=
| RequestFrameFilter (n : Z)
| GetFrameFilter (n : Z).

(** What one activation leaves behind: the pointer returned, the
    instance, the scratch word [*fd] and the calls to the host. *)
Record Activation : Type := mkActivation {
  returned : PVSFrameRef;
  instance : CacheInstance;
  frameData : Z;
  calls : list HostCall
}.

Definition extraFrames : Z := 7.

(** The marker written to [*fd] when a single frame is requested. *)
Definition noBatch : Z := -2.

(** [for (int i = ...; i <= n; i++) requestFrameFilter(i, ...)] *)
Fixpoint request_frames (fuel : nat) (i n : Z) : list HostCall :=
  match fuel with
  | O => []
  | S fuel' =>
      if i <=? n
      then RequestFrameFilter i :: request_frames fuel' (Int.add i 1) n
      else []
  end.

Section Scheduler.

(** The frame of [c->clip] that [vsapi->getFrameFilter] hands out for an
    index once it is ready; null when the upstream has none. *)
Variable getFrameFilter : Z -> PVSFrameRef.

(** [for (intptr_t i = ...; i < n; i++)] of the ready phase; [None] when
    an [assert] of [insert] fails. *)
Fixpoint fetch_frames (fuel : nat) (i n : Z) (x : VSCache)
  : option (VSCache * list HostCall) :=
  match fuel with
  | O => Some (x, [])
  | S fuel' =>
      if i <? n then
        let r := getFrameFilter (Int.wrap i) in
        match insert (Int.wrap i) r x with
        | None => None
        | Some (_, x1) =>
            match fetch_frames fuel' (Int.add64 i 1) n x1 with
            | None => None
            | Some (x2, l) => Some (x2, GetFrameFilter (Int.wrap i) :: l)
            end
        end
      else Some (x, [])
  end.

Definition cacheGetframe (n : Z) (activationReason : ActivationReason)
    (c : CacheInstance) (fd : Z) : option Activation :=
  match activationReason with
  | arInitial =>
      let (f, x) := object n (cache c) in
      let c1 := set_cache x c in
      match f with
      | Some _ => Some (mkActivation f c1 fd [])
      | None =>
          if makeLinear c1
             && negb (n =? Int.add (lastN c1) 1)
             && (n >? lastN c1)
             && (n <? Int.add (Int.add (lastN c1) (numThreads c1)) extraFrames)
          then
            let i := Int.add (lastN c1) 1 in
            Some (mkActivation None (set_lastN n c1) (lastN c1)
                    (request_frames (Z.to_nat (n - i + 1)) i n))
          else
            Some (mkActivation None (set_lastN n c1) noBatch
                    [RequestFrameFilter n])
      end
  | arAllFramesReady =>
      let batch :=
        if fd >=? -1
        then let i := Int.add64 fd 1 in
             fetch_frames (Z.to_nat (n - i)) i n (cache c)
        else Some (cache c, []) in
      match batch with
      | None => None
      | Some (x1, l) =>
          let r := getFrameFilter n in
          match insert n r x1 with
          | None => None
          | Some (_, x2) =>
              Some (mkActivation r (set_cache x2 c) fd (l ++ [GetFrameFilter n]))
          end
      end
  | arError => Some (mkActivation None c fd [])
  end.

End Scheduler.

(** ** Creation of the filter *)

(** Modelled from the spec: the optional arguments of the registered
    parameter set ("numeric size override (optional), fixed-size flag
    (optional boolean), linearize flag (optional boolean)"); [None] is an
    argument that was not given. *)
Record CacheArgs : Type := mkArgs {
  arg_size : option Z;
  arg_fixed : option Z;
  arg_make_linear : option Z
}.

(** Modelled from the spec: the host's accessor [mapGetInt] is not part of
    the sources; it delivers the value of a given argument, and zero with
    the error flag raised for one that was not given. *)
Definition mapGetInt (v : option Z) : Z * bool :=
  match v with
  | Some x => (x, false)
  | None => (0, true)
  end.

(** Modelled from the spec: [mapGetIntSaturated] is [mapGetInt] with the
    value brought into the range of [int]. *)
Definition mapGetIntSaturated (v : option Z) : Z * bool :=
  let (x, err) := mapGetInt v in
  (Z.max Int.int_min (Z.min Int.int_max x), err).

(** Modelled from the spec: the constructor of [CacheInstance] is declared
    in cachefilter.h.  The cache starts with capacities configured outside
    of this file ([sizeDefault], [historyDefault]) and [lastN] with "a
    sentinel below any valid index". *)
Definition CacheInstance_new (sizeDefault historyDefault : Z) (fixed : bool)
  : CacheInstance :=
  mkInstance (VSCache_new sizeDefault historyDefault fixed) (-1) 0 false.

Definition createCacheFilter (sizeDefault historyDefault : Z)
    (args : CacheArgs) (ci_numThreads : Z) : CacheInstance :=
  let fixed := negb (fst (mapGetInt (arg_fixed args)) =? 0) in
  let c := CacheInstance_new sizeDefault historyDefault fixed in
  let c := set_numThreads ci_numThreads c in
  let c := set_makeLinear (negb (fst (mapGetInt (arg_make_linear args)) =? 0)) c in
  let (size, err) := mapGetIntSaturated (arg_size args) in
  if negb err && (size >? 0) then
    set_cache (setMaxFrames size (cache c)) c
  else if makeLinear c then
    set_cache (setMaxFrames
                 (Z.max (Int.mul (Int.add (numThreads c) extraFrames) 2)
                        (Int.add 20 (numThreads c)))
                 (cache c)) c
  else
    set_cache (setMaxFrames 20 (cache c)) c.

(** ** Well-formed states and vocabulary of the statements *)

(** The live region: the nodes from [first] up to, and without, the first
    node that has lost its frame; the ghost region is the rest. *)
Fixpoint live_region (l : list Node) : list Node :=
  match l with
  | [] => []
  | n :: tl => if has_frame n then n :: live_region tl else []
  end.

Fixpoint ghost_region (l : list Node) : list Node :=
  match l with
  | [] => []
  | n :: tl => if has_frame n then ghost_region tl else l
  end.

Fixpoint keys_distinct (l : list Node) : bool :=
  match l with
  | [] => true
  | n :: tl => negb (existsb (fun m => key m =? key n) tl) && keys_distinct tl
  end.

Definition ptr_eqb (p q : NodePtr) : bool :=
  match p, q with
  | None, None => true
  | Some a, Some b => a =? b
  | _, _ => false
  end.

(** The invariants of the data model: keys are unique; no node of the
    ghost region has a frame; [weakpoint] is the first node of the ghost
    region, null when there is none; the two counters are the sizes of the
    two regions; the number of nodes fits an [int]. *)
Definition well_formed (c : VSCache) : bool :=
  keys_distinct (nodes c)
  && forallb (fun n => negb (has_frame n)) (ghost_region (nodes c))
  && ptr_eqb (weakpoint c) (option_map key (head (ghost_region (nodes c))))
  && (currentSize c =? Z.of_nat (length (live_region (nodes c))))
  && (historySize c =? Z.of_nat (length (ghost_region (nodes c))))
  && (Z.of_nat (length (nodes c)) <=? Int.int_max).

(** The state [clear()] leaves: no entry, no boundary, counters at zero. *)
Definition cleared (c : VSCache) : bool :=
  match nodes c, weakpoint c with
  | [], None =>
      (currentSize c =? 0) && (historySize c =? 0)
      && (hits c =? 0) && (nearMiss c =? 0) && (farMiss c =? 0)
  | _, _ => false
  end.

(** The statistics are counts of lookups, and their sum and the product
    of [recommendSize] fit an [int]. *)
Definition stats_ok (c : VSCache) : Prop :=
  0 <= hits c /\ 0 <= nearMiss c /\ 0 <= farMiss c
  /\ hits c + nearMiss c + farMiss c <= Int.int_max
  /\ nearMiss c * 20 <= Int.int_max.

(** [count] consecutive indices from [lo] on. *)
Definition indices (lo : Z) (count : nat) : list Z :=
  map (fun k => lo + Z.of_nat k) (seq 0 count).

(** Inserting the upstream frames of the indices [l], one after the
    other. *)
Fixpoint insert_frames (getFrameFilter : Z -> PVSFrameRef) (l : list Z)
    (x : VSCache) : option VSCache :=
  match l with
  | [] => Some x
  | i :: tl =>
      match insert i (getFrameFilter i) x with
      | None => None
      | Some (_, x1) => insert_frames getFrameFilter tl x1
      end
  end.

(** The same invariants with the two regions named: [nodes c] is [live]
    followed by [ghost]. *)
Record Split (c : VSCache) (live ghost : list Node) : Prop := mkSplit {
  sp_nodes : nodes c = live ++ ghost;
  sp_live : Forall (fun n => has_frame n = true) live;
  sp_ghost : Forall (fun n => has_frame n = false) ghost;
  sp_keys : NoDup (map key (nodes c));
  sp_weak : weakpoint c = option_map key (head ghost);
  sp_cur : currentSize c = Z.of_nat (length live);
  sp_hist : historySize c = Z.of_nat (length ghost);
  sp_len : Z.of_nat (length (nodes c)) <= Int.int_max
}.

(** Capacities, the fixed-size flag and the statistics of [c'] are those
    of [c]. *)
Definition same_config (c c' : VSCache) : Prop :=
  maxSize c' = maxSize c /\ maxHistorySize c' = maxHistorySize c
  /\ fixedSize c' = fixedSize c
  /\ hits c' = hits c /\ nearMiss c' = nearMiss c /\ farMiss c' = farMiss c.

(** ** Sample states *)

(** An upstream that has every frame. *)
Definition upstream (i : Z) : PVSFrameRef := Some (1000 + i).

(** Two live entries and one ghost, capacity 2. *)
Definition cache_three : VSCache :=
  mkCache [mkNode 3 (Some 1003); mkNode 2 (Some 1002); mkNode 1 None]
          (Some 1) 2 2 20 1 false 0 0 0.

(** One live entry, capacity 1, thirty far misses. *)
Definition shrink_sample : VSCache :=
  mkCache [mkNode 0 (Some 1000)] None 1 1 20 0 false 0 0 30.

(** A cache created with capacity 2, resized under memory pressure before
    any lookup, then asked once for a frame it does not hold. *)
Definition zero_capacity_sample : VSCache :=
  snd (object 3 (adjustSize true (VSCache_new 2 20 false))).

Definition low_total_sample : VSCache :=
  set_stats 5 0 10 (VSCache_new 20 20 false).


Definition grow_sample : VSCache :=
  set_stats 94 6 0 (VSCache_new 20 20 false).

Definition linear_instance : CacheInstance :=
  mkInstance (VSCache_new 20 20 false) 10 4 true.

Definition warm_instance : CacheInstance :=
  mkInstance cache_three 10 4 true.

Definition sized_args : CacheArgs := mkArgs (Some 64) None (Some 1).

(** ** Vocabulary of the further properties *)

(** The ghost a node becomes when its frame is released. *)
Definition ghost_of (n : Node) : Node := mkNode (key n) None.

(** The frame index a call to the host is about. *)
Definition call_index (h : HostCall) : Z :=
  match h with
  | RequestFrameFilter n => n
  | GetFrameFilter n => n
  end.

Definition is_request (h : HostCall) : bool :=
  match h with RequestFrameFilter _ => true | GetFrameFilter _ => false end.

Definition is_fetch (h : HostCall) : bool :=
  match h with RequestFrameFilter _ => false | GetFrameFilter _ => true end.

(** The capacity bounds of the cache. *)
Definition within_capacity (c : VSCache) : Prop :=
  currentSize c <= maxSize c /\ historySize c <= maxHistorySize c.

(** An upstream that has lost frame 13. *)
Definition upstream_gap (i : Z) : PVSFrameRef :=
  if i =? 13 then None else Some (1000 + i).

(** Thirty far misses on a cache of capacity 20. *)
Definition scan_sample : VSCache :=
  set_stats 0 0 30 (VSCache_new 20 20 false).


(** * Properties *)

(** ** Integer arithmetic without overflow *)

Lemma wrap_small (z : Z) : Int.in_range z -> Int.wrap z = z.
Proof.
  unfold Int.in_range, Int.int_min, Int.int_max, Int.wrap. intros H.
  rewrite Z.mod_small; lia.
Qed.

Lemma wrap64_small (z : Z) :
  -9223372036854775808 <= z <= 9223372036854775807 -> Int.wrap64 z = z.
Proof.
  unfold Int.wrap64. intros H. rewrite Z.mod_small; lia.
Qed.

Lemma add_small (a b : Z) : Int.in_range (a + b) -> Int.add a b = a + b.
Proof. apply wrap_small. Qed.

Lemma sub_small (a b : Z) : Int.in_range (a - b) -> Int.sub a b = a - b.
Proof. apply wrap_small. Qed.

Lemma mul_small (a b : Z) : Int.in_range (a * b) -> Int.mul a b = a * b.
Proof. apply wrap_small. Qed.

Ltac int_range := unfold Int.in_range, Int.int_min, Int.int_max in *; lia.

(** ** The resize policy *)

Lemma recommendSize_total (c : VSCache) :
  stats_ok c ->
  Int.add (Int.add (hits c) (nearMiss c)) (farMiss c)
  = hits c + nearMiss c + farMiss c
  /\ Int.mul (nearMiss c) 20 = nearMiss c * 20.
Proof.
  intros (Hh & Hn & Hf & Ht & Hm).
  rewrite (add_small (hits c)) by int_range.
  rewrite add_small by int_range.
  rewrite mul_small by int_range. auto.
Qed.

(** What [recommendSize] returns and what it leaves, case by case. *)
Lemma recommendSize_cases (c : VSCache) :
  stats_ok c ->
  let total := hits c + nearMiss c + farMiss c in
  (total = 0 /\ recommendSize c = (Clear, c))
  \/ (0 < total < 30 /\ recommendSize c = (NoChange, c))
  \/ (30 <= total /\ total <= nearMiss c * 20
      /\ recommendSize c = (Grow, clearStats c))
  \/ (30 <= total /\ nearMiss c = 0 /\ hits c = 0
      /\ recommendSize c = (Shrink, clearStats c))
  \/ (30 <= total /\ nearMiss c * 20 < total /\ ~ (nearMiss c = 0 /\ hits c = 0)
      /\ recommendSize c = (NoChange, clearStats c)).
Proof.
  intros Hok total. destruct (recommendSize_total c Hok) as [Ht Hm].
  unfold recommendSize. rewrite Ht, Hm. fold total.
  destruct Hok as (Hh & Hn & Hf & _ & _).
  destruct (Z.eqb_spec total 0) as [E0|E0]; [left; auto|].
  destruct (Z.ltb_spec total 30) as [E1|E1].
  { right; left. split; [lia | reflexivity]. }
  unfold Z.geb. destruct (Z.compare_spec (nearMiss c * 20) total) as [E2|E2|E2].
  - right; right; left. repeat split; try lia; reflexivity.
  - right; right; right.
    destruct (Z.eqb_spec (nearMiss c) 0) as [E3|E3]; simpl.
    + destruct (Z.eqb_spec (hits c) 0) as [E4|E4].
      * left. repeat split; try lia; reflexivity.
      * right. repeat split; try lia; reflexivity.
    + right. repeat split; try lia; reflexivity.
  - right; right; left. repeat split; try lia; reflexivity.
Qed.

(** C1. [recommendSize] returns Clear when the total of the statistics is
    zero, NoChange when it is positive and below 30, and otherwise Grow
    when [nearMiss * 20 >= total], else Shrink when there were neither
    near misses nor hits, else NoChange; Grow is decided before Shrink.
    The four examples of the specification follow. *)
Theorem recommendSize_policy (c : VSCache) :
  stats_ok c ->
  let total := hits c + nearMiss c + farMiss c in
  (total = 0 -> fst (recommendSize c) = Clear)
  /\ (0 < total < 30 -> fst (recommendSize c) = NoChange)
  /\ (30 <= total -> nearMiss c * 20 >= total -> fst (recommendSize c) = Grow)
  /\ (30 <= total -> nearMiss c * 20 < total -> nearMiss c = 0 -> hits c = 0 ->
      fst (recommendSize c) = Shrink)
  /\ (30 <= total -> nearMiss c * 20 < total -> ~ (nearMiss c = 0 /\ hits c = 0) ->
      fst (recommendSize c) = NoChange)
  /\ (hits c = 0 -> nearMiss c = 0 -> farMiss c = 0 ->
      fst (recommendSize c) = Clear)
  /\ (hits c = 5 -> nearMiss c = 0 -> farMiss c = 10 ->
      fst (recommendSize c) = NoChange)
  /\ (total = 100 -> nearMiss c = 6 -> fst (recommendSize c) = Grow)
  /\ (total = 100 -> nearMiss c = 0 -> hits c = 0 ->
      fst (recommendSize c) = Shrink).
Proof.
  intros Hok total.
  pose proof (recommendSize_cases c Hok) as H. fold total in H.
  destruct Hok as (Hh & Hn & Hf & _ & _).
  repeat split; intros;
    destruct H as [(?&E)|[(?&E)|[(?&?&E)|[(?&?&?&E)|(?&?&?&E)]]]];
    rewrite E; simpl; try reflexivity; exfalso; subst total; lia.
Qed.

(** C4 (as amended). [recommendSize] leaves the statistics at zero when it
    returns with a total of zero or of at least 30 (Clear, Grow, Shrink and
    the NoChange of a large sample); with a total between 1 and 29 it
    returns NoChange and leaves the whole state, statistics included, as it
    was. *)
Theorem recommendSize_resets_stats (c : VSCache) :
  stats_ok c ->
  let total := hits c + nearMiss c + farMiss c in
  let c' := snd (recommendSize c) in
  (total = 0 \/ 30 <= total ->
   hits c' = 0 /\ nearMiss c' = 0 /\ farMiss c' = 0)
  /\ (0 < total < 30 -> fst (recommendSize c) = NoChange /\ c' = c).
Proof.
  intros Hok total c'. subst c'.
  pose proof (recommendSize_cases c Hok) as H. fold total in H.
  destruct Hok as (Hh & Hn & Hf & _ & _).
  split; intros Ht;
    destruct H as [(?&E)|[(?&E)|[(?&?&E)|[(?&?&?&E)|(?&?&?&E)]]]];
    rewrite E; simpl; auto; try (exfalso; lia).
  subst total. repeat split; lia.
Qed.

(** ** Configuration is untouched by trimming *)

Lemma same_config_refl (c : VSCache) : same_config c c.
Proof. repeat split. Qed.

Lemma same_config_trans (a b c : VSCache) :
  same_config a b -> same_config b c -> same_config a c.
Proof.
  unfold same_config. intros (?&?&?&?&?&?) (?&?&?&?&?&?).
  repeat split; congruence.
Qed.

Lemma unlink_config (n : Node) (c : VSCache) : same_config c (unlink n c).
Proof. unfold unlink. destruct (has_frame n); repeat split. Qed.

Lemma trim_step_config (c : VSCache) : same_config c (trim_step c).
Proof. repeat split. Qed.

Lemma trim_frames_config (fuel : nat) (max : Z) (c : VSCache) :
  same_config c (trim_frames fuel max c).
Proof.
  revert c. induction fuel as [|fuel IH]; intros c; simpl.
  - apply same_config_refl.
  - destruct (currentSize c >? max).
    + eapply same_config_trans; [apply trim_step_config | apply IH].
    + apply same_config_refl.
Qed.

Lemma trim_history_config (fuel : nat) (maxHistory : Z) (c : VSCache) :
  same_config c (trim_history fuel maxHistory c).
Proof.
  revert c. induction fuel as [|fuel IH]; intros c; simpl.
  - apply same_config_refl.
  - destruct (lastNode (nodes c)) as [n|]; [|apply same_config_refl].
    destruct (historySize c >? maxHistory); [|apply same_config_refl].
    eapply same_config_trans; [apply unlink_config | apply IH].
Qed.

Lemma trim_config (max maxHistory : Z) (c : VSCache) :
  same_config c (trim max maxHistory c).
Proof.
  unfold trim. eapply same_config_trans;
    [apply trim_frames_config | apply trim_history_config].
Qed.

Lemma setMaxFrames_maxSize (m : Z) (c : VSCache) :
  maxSize (setMaxFrames m c) = m.
Proof.
  unfold setMaxFrames.
  destruct (trim_config (maxSize (set_maxSize m c))
              (maxHistorySize (set_maxSize m c)) (set_maxSize m c)) as (E & _).
  rewrite E. reflexivity.
Qed.

Lemma setMaxFrames_clear (m : Z) (c : VSCache) :
  0 <= m -> cleared (setMaxFrames m (clear c)) = true.
Proof.
  intros Hm. unfold setMaxFrames, trim. simpl.
  replace (Z.to_nat (- m)) with O by lia. reflexivity.
Qed.

(** ** Resizing under memory pressure *)

Lemma adjustSize_needMemory_cases (c : VSCache) :
  fixedSize c = false ->
  Int.in_range (maxSize c) -> 0 <= maxSize c ->
  let m := maxSize c in
  let c' := adjustSize true c in
  match fst (recommendSize c) with
  | Clear => cleared c' = true /\ maxSize c' = Z.max (m - 2) 0
  | Shrink => maxSize c' = Z.max (m - 2) 0
  | NoChange => maxSize c' = Z.max (m - 1) 1 /\ (m <= 1 -> cleared c' = true)
  | Grow => c' = snd (recommendSize c) /\ maxSize c' = m
  end.
Proof.
  intros Hfix Hr Hm m c'. subst c'. unfold adjustSize. rewrite Hfix. simpl.
  assert (Hcfg : maxSize (snd (recommendSize c)) = m).
  { unfold recommendSize.
    repeat match goal with |- context [if ?b then _ else _] => destruct b end;
      reflexivity. }
  destruct (recommendSize c) as [a c1]. simpl in *.
  unfold getMaxFrames.
  destruct a.
  - (* NoChange *)
    destruct (Z.leb_spec (maxSize c1) 1) as [L|L].
    + rewrite setMaxFrames_maxSize. simpl. rewrite Hcfg.
      rewrite sub_small by int_range. split; [reflexivity|]. intros _.
      apply setMaxFrames_clear. lia.
    + rewrite setMaxFrames_maxSize. rewrite Hcfg.
      rewrite sub_small by int_range. split; [reflexivity|]. lia.
  - auto.
  - rewrite setMaxFrames_maxSize, Hcfg. rewrite sub_small by int_range.
    reflexivity.
  - rewrite setMaxFrames_maxSize. simpl. rewrite Hcfg.
    rewrite sub_small by int_range. split; [|reflexivity].
    apply setMaxFrames_clear. lia.
Qed.

(** C5 (as amended). Under memory pressure, from a capacity of at least 1,
    [adjustSize] either leaves the cache cleared, or leaves a capacity of
    at least 1, or has followed the recommendation Shrink from a capacity
    of 1 or 2, which sets the capacity to [max(maxSize - 2, 0) = 0]. *)
Theorem adjustSize_needMemory_floor (c : VSCache) :
  fixedSize c = false ->
  Int.in_range (maxSize c) -> 1 <= maxSize c ->
  let c' := adjustSize true c in
  cleared c' = true
  \/ 1 <= maxSize c'
  \/ (fst (recommendSize c) = Shrink /\ maxSize c <= 2 /\ maxSize c' = 0).
Proof.
  intros Hfix Hr Hm c'. subst c'.
  pose proof (adjustSize_needMemory_cases c Hfix Hr ltac:(lia)) as H.
  simpl in H. destruct (fst (recommendSize c)) eqn:Ea.
  - right; left. destruct H as [E _]. rewrite E. lia.
  - right; left. destruct H as [_ E]. rewrite E. lia.
  - destruct (Z.le_gt_cases (maxSize c) 2) as [L|L].
    + right; right. repeat split; auto. rewrite H. lia.
    + right; left. rewrite H. lia.
  - left. apply H.
Qed.

(** C6 (as amended). Under memory pressure [adjustSize] does not raise the
    capacity of a cache whose capacity is at least 1, whatever the
    statistics are, Grow included, which leaves the cache as
    [recommendSize] left it; it does not raise a capacity of 0 either
    unless the recommendation is NoChange, which sets it to the floor 1. *)
Theorem adjustSize_needMemory_no_growth (c : VSCache) :
  fixedSize c = false ->
  Int.in_range (maxSize c) -> 0 <= maxSize c ->
  let c' := adjustSize true c in
  (1 <= maxSize c \/ fst (recommendSize c) <> NoChange ->
   maxSize c' <= maxSize c)
  /\ (fst (recommendSize c) = Grow ->
      c' = snd (recommendSize c) /\ maxSize c' = maxSize c)
  /\ (maxSize c = 0 -> fst (recommendSize c) = NoChange -> maxSize c' = 1).
Proof.
  intros Hfix Hr Hm c'. subst c'.
  pose proof (adjustSize_needMemory_cases c Hfix Hr Hm) as H.
  simpl in H. destruct (fst (recommendSize c)) eqn:Ea.
  - destruct H as [E _]. rewrite E. repeat split; try discriminate.
    + intros [L|L]; [lia | congruence].
    + intros Z0 _. lia.
  - destruct H as [E1 E2]. repeat split; auto; try discriminate. lia.
  - rewrite H. repeat split; try discriminate. lia.
  - destruct H as [_ E]. rewrite E. repeat split; try discriminate. lia.
Qed.

(** ** The recency list *)

Lemma existsb_key (k : Z) (l : list Node) :
  existsb (fun m => key m =? k) l = true <-> In k (map key l).
Proof.
  induction l as [|a l IH]; simpl.
  - split; [discriminate | tauto].
  - rewrite orb_true_iff, IH, Z.eqb_eq. tauto.
Qed.

Lemma keys_distinct_NoDup (l : list Node) :
  keys_distinct l = true <-> NoDup (map key l).
Proof.
  induction l as [|a l IH]; simpl.
  - split; [constructor | reflexivity].
  - rewrite andb_true_iff, negb_true_iff, IH. split.
    + intros [E H]. constructor; [|exact H].
      intros Hin. apply existsb_key in Hin. congruence.
    + intros H. inversion H as [|? ? Hn Hd]; subst. split; [|exact Hd].
      destruct (existsb _ l) eqn:E; [|reflexivity].
      apply existsb_key in E. contradiction.
Qed.

Lemma regions_app (l : list Node) : l = live_region l ++ ghost_region l.
Proof.
  induction l as [|a l IH]; simpl; [reflexivity|].
  destruct (has_frame a); simpl; [f_equal; exact IH | reflexivity].
Qed.

Lemma live_region_frames (l : list Node) :
  Forall (fun n => has_frame n = true) (live_region l).
Proof.
  induction l as [|a l IH]; simpl; [constructor|].
  destruct (has_frame a) eqn:E; constructor; assumption.
Qed.

Lemma regions_of_split (live ghost : list Node) :
  Forall (fun n => has_frame n = true) live ->
  Forall (fun n => has_frame n = false) ghost ->
  live_region (live ++ ghost) = live /\ ghost_region (live ++ ghost) = ghost.
Proof.
  intros Hl Hg. induction Hl as [|a live Ha _ IH]; simpl.
  - destruct Hg as [|g ghost Eg _]; simpl; [auto|]. rewrite Eg. auto.
  - rewrite Ha. destruct IH as [-> ->]. auto.
Qed.

Lemma lastNode_app (l : list Node) (x : Node) : lastNode (l ++ [x]) = Some x.
Proof.
  induction l as [|a l IH]; simpl; [reflexivity|].
  destruct (l ++ [x]) eqn:E; [destruct l; discriminate | exact IH].
Qed.

Lemma lastNode_In (l : list Node) (n : Node) : lastNode l = Some n -> In n l.
Proof.
  induction l as [|a l IH]; simpl; [discriminate|].
  destruct l as [|b l]; [intros [= ->]; auto | auto].
Qed.

Lemma lastNode_None (l : list Node) : lastNode l = None -> l = [].
Proof.
  induction l as [|a l IH]; simpl; [reflexivity|].
  destruct l as [|b l]; [discriminate|].
  intros H. specialize (IH H). discriminate.
Qed.

Lemma prevNode_app (live : list Node) (x g : Node) (gs : list Node) :
  ~ In (key g) (map key (live ++ [x])) ->
  prevNode (live ++ x :: g :: gs) (key g) = Some (key x).
Proof.
  induction live as [|a live IH]; intros Hn.
  - simpl. rewrite Z.eqb_refl. reflexivity.
  - assert (Hn' : ~ In (key g) (map key (live ++ [x]))).
    { intros Hin. apply Hn. simpl. auto. }
    specialize (IH Hn').
    destruct live as [|b live].
    + simpl in *. destruct (Z.eqb_spec (key x) (key g)) as [E|E]; [|exact IH].
      exfalso. apply Hn. auto.
    + change (prevNode (a :: b :: (live ++ x :: g :: gs)) (key g)
              = Some (key x)).
      change (prevNode (a :: b :: (live ++ x :: g :: gs)) (key g))
        with (if key b =? key g then Some (key a)
              else prevNode (b :: (live ++ x :: g :: gs)) (key g)).
      destruct (Z.eqb_spec (key b) (key g)) as [E|E]; [|exact IH].
      exfalso. apply Hn'. simpl. auto.
Qed.

Lemma nextNode_app (live : list Node) (g : Node) (gs : list Node) :
  ~ In (key g) (map key live) ->
  nextNode (live ++ g :: gs) (key g) = option_map key (head gs).
Proof.
  induction live as [|a live IH]; intros Hn; simpl.
  - rewrite Z.eqb_refl. reflexivity.
  - destruct (Z.eqb_spec (key a) (key g)) as [E|E].
    + exfalso. apply Hn. simpl. auto.
    + apply IH. intros Hin. apply Hn. simpl. auto.
Qed.

Lemma reset_frame_keys (k : Z) (l : list Node) :
  map key (reset_frame k l) = map key l.
Proof.
  unfold reset_frame. rewrite map_map. apply map_ext.
  intros a. destruct (key a =? k); reflexivity.
Qed.

Lemma reset_frame_notin (k : Z) (l : list Node) :
  ~ In k (map key l) -> reset_frame k l = l.
Proof.
  induction l as [|a l IH]; intros Hn; simpl; [reflexivity|].
  destruct (Z.eqb_spec (key a) k) as [E|E].
  - exfalso. apply Hn. simpl. auto.
  - f_equal. apply IH. intros Hin. apply Hn. simpl. auto.
Qed.

Lemma NoDup_keys_app (a b : list Node) (n : Node) :
  NoDup (map key (a ++ n :: b)) ->
  ~ In (key n) (map key a) /\ ~ In (key n) (map key b).
Proof.
  rewrite map_app. simpl. intros H.
  apply NoDup_remove_2 in H. rewrite in_app_iff in H. tauto.
Qed.

Lemma reset_frame_app (live : list Node) (x : Node) (ghost : list Node) :
  NoDup (map key (live ++ x :: ghost)) ->
  reset_frame (key x) (live ++ x :: ghost)
  = live ++ mkNode (key x) None :: ghost.
Proof.
  intros H. destruct (NoDup_keys_app _ _ _ H) as [Ha Hb].
  unfold reset_frame. rewrite map_app. simpl. rewrite Z.eqb_refl.
  fold (reset_frame (key x) live). fold (reset_frame (key x) ghost).
  rewrite !reset_frame_notin by assumption. reflexivity.
Qed.

Lemma remove_node_app (k : Z) (a b : list Node) :
  remove_node k (a ++ b) = remove_node k a ++ remove_node k b.
Proof. apply filter_app. Qed.

Lemma remove_node_notin (k : Z) (l : list Node) :
  ~ In k (map key l) -> remove_node k l = l.
Proof.
  induction l as [|a l IH]; intros Hn; simpl; [reflexivity|].
  destruct (Z.eqb_spec (key a) k) as [E|E]; simpl.
  - exfalso. apply Hn. simpl. auto.
  - f_equal. apply IH. intros Hin. apply Hn. simpl. auto.
Qed.

Lemma remove_node_absent (k : Z) (l : list Node) :
  ~ In k (map key (remove_node k l)).
Proof.
  induction l as [|a l IH]; simpl; [tauto|].
  destruct (Z.eqb_spec (key a) k) as [E|E]; simpl; [exact IH|].
  intros [H|H]; [contradiction | exact (IH H)].
Qed.

Lemma remove_node_keys_in (k j : Z) (l : list Node) :
  In j (map key (remove_node k l)) -> In j (map key l).
Proof.
  induction l as [|a l IH]; simpl; [tauto|].
  destruct (key a =? k); simpl; tauto.
Qed.

Lemma remove_node_NoDup (k : Z) (l : list Node) :
  NoDup (map key l) -> NoDup (map key (remove_node k l)).
Proof.
  induction l as [|a l IH]; simpl; intros H; [constructor|].
  inversion H as [|? ? Hn Hd]; subst.
  destruct (key a =? k); simpl; [auto|].
  constructor; [|auto]. intros Hin. apply Hn.
  eapply remove_node_keys_in; eauto.
Qed.

Lemma remove_node_length (l : list Node) (n : Node) :
  NoDup (map key l) -> In n l ->
  S (length (remove_node (key n) l)) = length l.
Proof.
  induction l as [|a l IH]; simpl; intros Hd Hin; [contradiction|].
  inversion Hd as [|? ? Hn Hd']; subst.
  destruct Hin as [->|Hin].
  - rewrite Z.eqb_refl. simpl. rewrite remove_node_notin by assumption.
    reflexivity.
  - destruct (Z.eqb_spec (key a) (key n)) as [E|E]; simpl.
    + exfalso. apply Hn. rewrite E. apply in_map. exact Hin.
    + f_equal. apply IH; assumption.
Qed.

Lemma find_node_Some (k : Z) (l : list Node) (n : Node) :
  find_node k l = Some n -> In n l /\ key n = k.
Proof.
  induction l as [|a l IH]; simpl; [discriminate|].
  destruct (Z.eqb_spec (key a) k) as [E|E].
  - intros [= ->]. auto.
  - intros H. destruct (IH H). auto.
Qed.

Lemma find_node_None (k : Z) (l : list Node) :
  find_node k l = None <-> ~ In k (map key l).
Proof.
  induction l as [|a l IH]; simpl; [tauto|].
  destruct (Z.eqb_spec (key a) k) as [E|E].
  - split; [discriminate | intros H; exfalso; auto].
  - rewrite IH. tauto.
Qed.

Lemma find_node_remove_other (k j : Z) (l : list Node) :
  j <> k -> find_node j (remove_node k l) = find_node j l.
Proof.
  intros Hjk. induction l as [|a l IH]; simpl; [reflexivity|].
  destruct (Z.eqb_spec (key a) k) as [E|E]; simpl.
  - destruct (Z.eqb_spec (key a) j) as [E'|E']; [congruence | exact IH].
  - rewrite IH. reflexivity.
Qed.

(** ** Well-formed states *)

Lemma ptr_eqb_eq (p q : NodePtr) : ptr_eqb p q = true <-> p = q.
Proof.
  destruct p as [a|], q as [b|]; simpl;
    try (split; [discriminate | intros [=]]); try tauto.
  rewrite Z.eqb_eq. split; [congruence | intros [=]; assumption].
Qed.

Lemma forallb_ghost (l : list Node) :
  forallb (fun n => negb (has_frame n)) l = true
  <-> Forall (fun n => has_frame n = false) l.
Proof.
  rewrite forallb_forall, Forall_forall.
  split; intros H x Hx; specialize (H x Hx);
    destruct (has_frame x); simpl in *; congruence.
Qed.

Lemma well_formed_split (c : VSCache) :
  well_formed c = true ->
  Split c (live_region (nodes c)) (ghost_region (nodes c)).
Proof.
  unfold well_formed. rewrite !andb_true_iff.
  intros [[[[[Hk Hg] Hw] Hc] Hh] Hl].
  constructor.
  - apply regions_app.
  - apply live_region_frames.
  - apply forallb_ghost. exact Hg.
  - apply keys_distinct_NoDup. exact Hk.
  - apply ptr_eqb_eq. exact Hw.
  - apply Z.eqb_eq. exact Hc.
  - apply Z.eqb_eq. exact Hh.
  - apply Z.leb_le. exact Hl.
Qed.

Lemma split_well_formed (c : VSCache) (live ghost : list Node) :
  Split c live ghost -> well_formed c = true.
Proof.
  intros [Hn Hl Hg Hk Hw Hc Hh Hlen].
  destruct (regions_of_split live ghost Hl Hg) as [El Eg].
  unfold well_formed. rewrite Hn, El, Eg. rewrite <- Hn.
  rewrite !andb_true_iff. repeat split.
  - apply keys_distinct_NoDup. exact Hk.
  - apply forallb_ghost. exact Hg.
  - apply ptr_eqb_eq. exact Hw.
  - apply Z.eqb_eq. exact Hc.
  - apply Z.eqb_eq. exact Hh.
  - apply Z.leb_le. exact Hlen.
Qed.

(** A cache is well formed when it is constructed and whenever it has
    been cleared. *)
Lemma clear_well_formed (c : VSCache) : well_formed (clear c) = true.
Proof. reflexivity. Qed.

Lemma VSCache_new_well_formed (maxSize maxHistorySize : Z) (fixedSize : bool) :
  well_formed (VSCache_new maxSize maxHistorySize fixedSize) = true.
Proof. reflexivity. Qed.

(** One turn of the first loop demotes the last live node. *)
Lemma trim_step_split (c : VSCache) (live : list Node) (x : Node)
    (ghost : list Node) :
  Split c (live ++ [x]) ghost ->
  Split (trim_step c) live (mkNode (key x) None :: ghost).
Proof.
  intros [Hn Hl Hg Hk Hw Hc Hh Hlen].
  rewrite <- app_assoc in Hn. simpl in Hn.
  assert (Hk' : NoDup (map key (live ++ x :: ghost))) by (rewrite <- Hn; exact Hk).
  assert (Hwp : match weakpoint c with
                | None => option_map key (lastNode (nodes c))
                | Some k => prevNode (nodes c) k
                end = Some (key x)).
  { rewrite Hw, Hn. destruct ghost as [|g gs]; simpl.
    - rewrite lastNode_app. reflexivity.
    - apply prevNode_app.
      replace (live ++ x :: g :: gs) with ((live ++ [x]) ++ g :: gs) in Hk'
        by (rewrite <- app_assoc; reflexivity).
      apply (NoDup_keys_app _ _ _ Hk'). }
  assert (Hlen' : Z.of_nat (length live) + 1 + Z.of_nat (length ghost)
                  = Z.of_nat (length (nodes c))).
  { rewrite Hn, length_app. simpl. lia. }
  rewrite length_app in Hc. simpl in Hc.
  unfold trim_step. rewrite Hwp. constructor; simpl.
  - rewrite Hn. apply reset_frame_app. exact Hk'.
  - apply Forall_app in Hl. apply Hl.
  - constructor; [reflexivity | exact Hg].
  - rewrite reset_frame_keys. exact Hk.
  - reflexivity.
  - rewrite Hc. rewrite sub_small by int_range. lia.
  - rewrite Hh. rewrite add_small by int_range. lia.
  - unfold reset_frame. rewrite length_map. exact Hlen.
Qed.

(** Unlinking a node of the list keeps the state well formed. *)
Lemma unlink_split (c : VSCache) (live ghost : list Node) (n : Node) :
  Split c live ghost -> In n (nodes c) ->
  Split (unlink n c) (remove_node (key n) live) (remove_node (key n) ghost).
Proof.
  intros [Hn Hl Hg Hk Hw Hc Hh Hlen] Hin.
  assert (Hk' : NoDup (map key (live ++ ghost))) by (rewrite <- Hn; exact Hk).
  assert (Hwp : match weakpoint c with
                | Some k => if k =? key n then nextNode (nodes c) k else Some k
                | None => None
                end = option_map key (head (remove_node (key n) ghost))).
  { rewrite Hw. destruct ghost as [|g gs]; simpl; [reflexivity|].
    destruct (NoDup_keys_app _ _ _ Hk') as [Ha Hb].
    destruct (Z.eqb_spec (key g) (key n)) as [E|E]; simpl.
    - rewrite Hn, nextNode_app by exact Ha.
      rewrite <- E, remove_node_notin by exact Hb. reflexivity.
    - reflexivity. }
  assert (Hcount : if has_frame n
                   then S (length (remove_node (key n) live)) = length live
                        /\ remove_node (key n) ghost = ghost
                   else remove_node (key n) live = live
                        /\ S (length (remove_node (key n) ghost)) = length ghost).
  { rewrite Hn in Hin. apply in_app_or in Hin.
    rewrite map_app in Hk'.
    destruct (has_frame n) eqn:Ef.
    - destruct Hin as [Hin|Hin].
      + split.
        * apply remove_node_length; [|exact Hin].
          eapply NoDup_app_remove_r; eauto.
        * apply remove_node_notin. intros Hb.
          apply NoDup_app_remove_l in Hk' as Hg'.
          clear -Hk' Hin Hb.
          induction live as [|a live IH]; [contradiction|].
          simpl in Hk'. inversion Hk' as [|? ? Hn Hd]; subst.
          destruct Hin as [->|Hin]; [|auto].
          apply Hn. apply in_or_app. auto.
      + rewrite Forall_forall in Hg. rewrite (Hg n Hin) in Ef. discriminate.
    - destruct Hin as [Hin|Hin].
      + rewrite Forall_forall in Hl. rewrite (Hl n Hin) in Ef. discriminate.
      + split.
        * apply remove_node_notin. intros Ha.
          clear -Hk' Hin Ha.
          induction live as [|a live IH]; [contradiction|].
          simpl in Hk'. inversion Hk' as [|? ? Hn Hd]; subst.
          destruct Ha as [E|Ha]; [|auto].
          apply Hn. apply in_or_app. right. rewrite E. apply in_map. exact Hin.
        * apply remove_node_length; [|exact Hin].
          eapply NoDup_app_remove_l; eauto. }
  assert (Hlen2 : (length (remove_node (key n) (nodes c)) <= length (nodes c))%nat).
  { apply filter_length_le. }
  assert (Hsum : length (nodes c) = (length live + length ghost)%nat).
  { rewrite Hn. apply length_app. }
  unfold unlink. rewrite Hwp.
  destruct (has_frame n); destruct Hcount as [E1 E2]; constructor; simpl;
    try (rewrite Hn; apply remove_node_app);
    try (apply Forall_forall; intros y Hy; apply filter_In in Hy;
         destruct Hy as [Hy _];
         first [ rewrite Forall_forall in Hl; exact (Hl y Hy)
               | rewrite Forall_forall in Hg; exact (Hg y Hy) ]);
    try (apply remove_node_NoDup; exact Hk);
    try reflexivity;
    try lia.
  - rewrite Hc. rewrite sub_small by int_range. lia.
  - rewrite E2. exact Hh.
  - rewrite E1. exact Hc.
  - rewrite Hh. rewrite sub_small by int_range. lia.
Qed.

Lemma unlink_nodes (n : Node) (c : VSCache) :
  nodes (unlink n c) = remove_node (key n) (nodes c).
Proof. unfold unlink. destruct (has_frame n); reflexivity. Qed.

(** ** Trimming *)

(** The first loop of [trim] leaves through its condition, with the state
    well formed. *)
Lemma trim_frames_split (fuel : nat) :
  forall (c : VSCache) (live ghost : list Node) (max : Z),
    Split c live ghost -> 0 <= max ->
    Z.to_nat (currentSize c - max) = fuel ->
    exists live' ghost',
      Split (trim_frames fuel max c) live' ghost'
      /\ currentSize (trim_frames fuel max c) <= max.
Proof.
  induction fuel as [|fuel IH]; intros c live ghost max Hs Hmax Hfuel; simpl.
  - exists live, ghost. split; [exact Hs | lia].
  - rewrite Z.gtb_ltb. destruct (Z.ltb_spec max (currentSize c)) as [L|L]; [|lia].
    assert (Hne : live <> []).
    { intros ->. pose proof (sp_cur _ _ _ Hs) as E. simpl in E. lia. }
    destruct (exists_last Hne) as (l & x & ->).
    pose proof (trim_step_split c l x ghost Hs) as Hs'.
    apply (IH _ _ _ max Hs' Hmax).
    rewrite (sp_cur _ _ _ Hs'). pose proof (sp_cur _ _ _ Hs) as E.
    rewrite length_app in E. simpl in E. lia.
Qed.

(** The second loop of [trim] leaves through its condition as well. *)
Lemma trim_history_split (fuel : nat) :
  forall (c : VSCache) (live ghost : list Node) (maxHistory : Z),
    Split c live ghost -> 0 <= maxHistory ->
    (length (nodes c) <= fuel)%nat ->
    exists live' ghost',
      Split (trim_history fuel maxHistory c) live' ghost'
      /\ historySize (trim_history fuel maxHistory c) <= maxHistory
      /\ currentSize (trim_history fuel maxHistory c) <= currentSize c.
Proof.
  induction fuel as [|fuel IH]; intros c live ghost mh Hs Hmh Hfuel; simpl.
  - exists live, ghost. split; [exact Hs|]. split; [|lia].
    destruct (nodes c) eqn:E; [|simpl in Hfuel; lia].
    pose proof (sp_nodes _ _ _ Hs) as En. rewrite E in En.
    symmetry in En. apply app_eq_nil in En. destruct En as [_ ->].
    rewrite (sp_hist _ _ _ Hs). simpl. lia.
  - destruct (lastNode (nodes c)) as [n|] eqn:El.
    + rewrite Z.gtb_ltb.
      destruct (Z.ltb_spec mh (historySize c)) as [L|L].
      * apply lastNode_In in El.
        pose proof (unlink_split c live ghost n Hs El) as Hs'.
        destruct (IH _ _ _ mh Hs' Hmh) as (l' & g' & H1 & H2 & H3).
        { rewrite unlink_nodes.
          pose proof (remove_node_length (nodes c) n (sp_keys _ _ _ Hs) El).
          lia. }
        exists l', g'. split; [exact H1|]. split; [exact H2|].
        rewrite (sp_cur _ _ _ Hs') in H3. rewrite (sp_cur _ _ _ Hs).
        pose proof (filter_length_le (fun m => negb (key m =? key n)) live) as Hle.
        fold (remove_node (key n) live) in Hle. lia.
      * exists live, ghost. split; [exact Hs|]. lia.
    + exists live, ghost. split; [exact Hs|]. split; [|lia].
      apply lastNode_None in El.
      pose proof (sp_nodes _ _ _ Hs) as En. rewrite El in En.
      symmetry in En. apply app_eq_nil in En. destruct En as [_ ->].
      rewrite (sp_hist _ _ _ Hs). simpl. lia.
Qed.

Lemma trim_split (c : VSCache) (live ghost : list Node) (max maxHistory : Z) :
  Split c live ghost -> 0 <= max -> 0 <= maxHistory ->
  exists live' ghost',
    Split (trim max maxHistory c) live' ghost'
    /\ currentSize (trim max maxHistory c) <= max
    /\ historySize (trim max maxHistory c) <= maxHistory.
Proof.
  intros Hs Hmax Hmh. unfold trim.
  destruct (trim_frames_split _ c live ghost max Hs Hmax eq_refl)
    as (l1 & g1 & Hs1 & Hc1).
  destruct (trim_history_split _ _ l1 g1 maxHistory Hs1 Hmh (le_n _))
    as (l2 & g2 & Hs2 & Hh2 & Hc2).
  exists l2, g2. split; [exact Hs2|]. split; [lia | exact Hh2].
Qed.

(** [remove] keeps the state well formed and leaves no node of the key. *)
Lemma remove_split (k : Z) (c : VSCache) (live ghost : list Node) :
  Split c live ghost ->
  exists live' ghost',
    Split (snd (remove k c)) live' ghost'
    /\ ~ In k (map key (nodes (snd (remove k c))))
    /\ (length (nodes (snd (remove k c))) <= length (nodes c))%nat
    /\ same_config c (snd (remove k c)).
Proof.
  intros Hs. unfold remove. destruct (find_node k (nodes c)) as [n|] eqn:Ef; simpl.
  - destruct (find_node_Some _ _ _ Ef) as [Hin Hk].
    exists (remove_node (key n) live), (remove_node (key n) ghost).
    split; [apply unlink_split; assumption|].
    rewrite unlink_nodes, Hk. split; [apply remove_node_absent|].
    split; [apply filter_length_le | apply unlink_config].
  - exists live, ghost. split; [exact Hs|].
    split; [apply find_node_None; exact Ef|].
    split; [lia | apply same_config_refl].
Qed.

(** Linking a new node with a frame in front keeps the state well
    formed. *)
Lemma push_split (k : Z) (f : VSFrame) (c : VSCache) (live ghost : list Node) :
  Split c live ghost ->
  ~ In k (map key (nodes c)) ->
  Z.of_nat (length (nodes c)) < Int.int_max ->
  Split (set_currentSize (Int.add (currentSize c) 1)
           (set_nodes (mkNode k (Some f) :: nodes c) c))
        (mkNode k (Some f) :: live) ghost.
Proof.
  intros [Hn Hl Hg Hk Hw Hc Hh Hlen] Hfresh Hroom.
  assert (Hsum : length (nodes c) = (length live + length ghost)%nat).
  { rewrite Hn. apply length_app. }
  constructor; simpl.
  - rewrite Hn. reflexivity.
  - constructor; [reflexivity | exact Hl].
  - exact Hg.
  - constructor; assumption.
  - exact Hw.
  - rewrite Hc, add_small by int_range. lia.
  - exact Hh.
  - lia.
Qed.



(** ** Removal *)

(** C9. [remove] reports whether the key was present: for an absent key it
    returns false and leaves the cache as it is; for a present key it
    returns true, the entry is gone from the cache, every other entry is
    kept, and the counter of the region the entry was in is decremented. *)
Theorem remove_reports_presence (c : VSCache) (k : Z) :
  (find_node k (nodes c) = None -> remove k c = (false, c))
  /\ (forall n : Node,
         find_node k (nodes c) = Some n ->
         let c' := snd (remove k c) in
         fst (remove k c) = true
         /\ find_node k (nodes c') = None
         /\ (forall j : Z, j <> k -> find_node j (nodes c') = find_node j (nodes c))
         /\ (if has_frame n
             then currentSize c' = Int.sub (currentSize c) 1
                  /\ historySize c' = historySize c
             else historySize c' = Int.sub (historySize c) 1
                  /\ currentSize c' = currentSize c)).
Proof.
  split.
  - intros E. unfold remove. rewrite E. reflexivity.
  - intros n E c'. subst c'. unfold remove. rewrite E. simpl.
    destruct (find_node_Some _ _ _ E) as [_ Hk].
    rewrite unlink_nodes, Hk.
    split; [reflexivity|].
    split; [apply find_node_None, remove_node_absent|].
    split; [intros j Hj; apply find_node_remove_other; exact Hj|].
    unfold unlink. destruct (has_frame n); simpl; auto.
Qed.

(** ** Creation of the filter *)

Lemma createCacheFilter_unfold (sizeDefault historyDefault : Z)
    (args : CacheArgs) (threads : Z) :
  let c := createCacheFilter sizeDefault historyDefault args threads in
  let linear := negb (fst (mapGetInt (arg_make_linear args)) =? 0) in
  makeLinear c = linear
  /\ numThreads c = threads
  /\ maxSize (cache c)
     = (let (size, err) := mapGetIntSaturated (arg_size args) in
        if negb err && (size >? 0) then size
        else if linear
             then Z.max (Int.mul (Int.add threads extraFrames) 2)
                        (Int.add 20 threads)
             else 20).
Proof.
  intros c linear. subst c. unfold createCacheFilter.
  destruct (mapGetIntSaturated (arg_size args)) as [size err].
  fold linear. simpl makeLinear. simpl numThreads.
  destruct (negb err && (size >? 0)).
  - cbn [cache set_cache makeLinear numThreads].
    rewrite setMaxFrames_maxSize. auto.
  - destruct linear; cbn [cache set_cache makeLinear numThreads];
      rewrite setMaxFrames_maxSize; auto.
Qed.

(** C8. The capacity that [createCacheFilter] sets: the [size] argument
    when it is given and positive; otherwise, with [make_linear] given and
    not zero, [max((numThreads + 7) * 2, 20 + numThreads)]; otherwise 20. *)
Theorem createCacheFilter_capacity (sizeDefault historyDefault : Z)
    (args : CacheArgs) (threads : Z) :
  0 <= threads -> (threads + 7) * 2 <= Int.int_max ->
  let c := createCacheFilter sizeDefault historyDefault args threads in
  let given_positive :=
    match arg_size args with Some s => 0 <? s | None => false end in
  (forall s : Z,
      arg_size args = Some s -> 0 < s -> s <= Int.int_max ->
      maxSize (cache c) = s)
  /\ (given_positive = false -> makeLinear c = true ->
      maxSize (cache c) = Z.max ((threads + 7) * 2) (20 + threads))
  /\ (given_positive = false -> makeLinear c = false ->
      maxSize (cache c) = 20)
  /\ makeLinear c
     = match arg_make_linear args with
       | Some v => negb (v =? 0)
       | None => false
       end.
Proof.
  intros Ht Hr c given_positive.
  destruct (createCacheFilter_unfold sizeDefault historyDefault args threads)
    as (Hl & _ & Hm).
  fold c in Hl, Hm. rewrite Hm, Hl. clear Hm Hl. subst given_positive.
  unfold mapGetIntSaturated, mapGetInt, extraFrames.
  rewrite (add_small threads), add_small, mul_small by int_range.
  destruct (arg_size args) as [s|]; simpl.
  - rewrite Z.gtb_ltb.
    destruct (Z.ltb_spec 0 s) as [L|L];
      destruct (Z.ltb_spec 0 (Z.max Int.int_min (Z.min Int.int_max s)))
        as [L'|L'];
      try (exfalso; unfold Int.int_min, Int.int_max in *; lia).
    + repeat split; try discriminate.
      * intros s' [= <-] _ Hmax. unfold Int.int_min, Int.int_max in *. lia.
      * destruct (arg_make_linear args); reflexivity.
    + repeat split.
      * intros s' [= <-] Hs. lia.
      * intros _ ->. reflexivity.
      * intros _ ->. reflexivity.
      * destruct (arg_make_linear args); reflexivity.
  - repeat split.
    + discriminate.
    + intros _ ->. reflexivity.
    + intros _ ->. reflexivity.
    + destruct (arg_make_linear args); reflexivity.
Qed.

(** ** The request scheduler *)

Lemma indices_succ (lo : Z) (k : nat) :
  indices lo (S k) = lo :: indices (lo + 1) k.
Proof.
  unfold indices. simpl. f_equal; [lia|].
  rewrite <- seq_shift, map_map. apply map_ext. intros a. lia.
Qed.

Lemma In_indices (lo : Z) (k : nat) (j : Z) :
  In j (indices lo k) <-> lo <= j < lo + Z.of_nat k.
Proof.
  unfold indices. rewrite in_map_iff. split.
  - intros (a & <- & Ha). apply in_seq in Ha. lia.
  - intros H. exists (Z.to_nat (j - lo)). split; [lia|].
    apply in_seq. lia.
Qed.

(** The request loop of the initial phase asks for consecutive indices. *)
Lemma request_frames_indices (fuel : nat) :
  forall i n : Z,
    Z.to_nat (n - i + 1) = fuel ->
    Int.in_range i -> n < Int.int_max ->
    request_frames fuel i n = map RequestFrameFilter (indices i fuel).
Proof.
  induction fuel as [|fuel IH]; intros i n Hfuel Hi Hn; [reflexivity|].
  rewrite indices_succ. simpl.
  destruct (Z.leb_spec i n) as [L|L]; [|lia].
  rewrite add_small by int_range. f_equal.
  apply IH; [lia | int_range | exact Hn].
Qed.

Section SchedulerProperties.

Variable getFrameFilter : Z -> PVSFrameRef.

(** The initial phase on a miss, with the comparisons of the source
    carried out without overflow. *)
Lemma initial_miss_unfold (c : CacheInstance) (n fd : Z) :
  fst (object n (cache c)) = None ->
  Int.in_range (lastN c) -> 0 <= numThreads c ->
  lastN c + numThreads c + 7 <= Int.int_max ->
  let c1 := set_lastN n (set_cache (snd (object n (cache c))) c) in
  cacheGetframe getFrameFilter n arInitial c fd
  = Some (if makeLinear c && negb (n =? lastN c + 1) && (lastN c <? n)
             && (n <? lastN c + numThreads c + 7)
          then mkActivation None c1 (lastN c)
                 (map RequestFrameFilter
                    (indices (lastN c + 1) (Z.to_nat (n - lastN c))))
          else mkActivation None c1 noBatch [RequestFrameFilter n]).
Proof.
  intros Hmiss Hl Ht Hsum c1. subst c1. unfold cacheGetframe.
  destruct (object n (cache c)) as [f x]. simpl in Hmiss. subst f.
  cbn [snd lastN numThreads makeLinear set_cache]. unfold extraFrames.
  rewrite (add_small (lastN c) (numThreads c)) by int_range.
  rewrite (add_small (lastN c) 1), (add_small _ 7) by int_range.
  rewrite Z.gtb_ltb.
  destruct (makeLinear c && negb (n =? lastN c + 1) && (lastN c <? n)
            && (n <? lastN c + numThreads c + 7)) eqn:E; [|reflexivity].
  rewrite !andb_true_iff in E. destruct E as [[[_ _] L1] L2].
  apply Z.ltb_lt in L1, L2.
  rewrite request_frames_indices by int_range.
  replace (n - (lastN c + 1) + 1) with (n - lastN c) by lia. reflexivity.
Qed.

(** C3. On a miss of the initial phase with linearization enabled: when
    [lastN < n < lastN + numThreads + 7] and [n <> lastN + 1] the indices
    [lastN + 1, ..., n] are requested, in this order, and the marker is
    [lastN]; otherwise [n] alone is requested and the marker is the
    no-batch value.  With [lastN = 10] and 4 threads, [n = 15] requests
    11 to 15 with marker 10 and [n = 50] requests 50 alone. *)
Theorem initial_phase_miss (c : CacheInstance) (n fd : Z) :
  makeLinear c = true ->
  fst (object n (cache c)) = None ->
  Int.in_range (lastN c) -> 0 <= numThreads c ->
  lastN c + numThreads c + 7 <= Int.int_max ->
  exists a : Activation,
    cacheGetframe getFrameFilter n arInitial c fd = Some a
    /\ returned a = None
    /\ (lastN c < n < lastN c + numThreads c + 7 -> n <> lastN c + 1 ->
        calls a = map RequestFrameFilter
                    (indices (lastN c + 1) (Z.to_nat (n - lastN c)))
        /\ (forall j : Z,
               In (RequestFrameFilter j) (calls a) <-> lastN c + 1 <= j <= n)
        /\ frameData a = lastN c)
    /\ (~ (lastN c < n < lastN c + numThreads c + 7 /\ n <> lastN c + 1) ->
        calls a = [RequestFrameFilter n] /\ frameData a = noBatch)
    /\ (lastN c = 10 -> numThreads c = 4 -> n = 15 ->
        calls a = [RequestFrameFilter 11; RequestFrameFilter 12;
                   RequestFrameFilter 13; RequestFrameFilter 14;
                   RequestFrameFilter 15]
        /\ frameData a = 10)
    /\ (lastN c = 10 -> numThreads c = 4 -> n = 50 ->
        calls a = [RequestFrameFilter 50] /\ frameData a = noBatch).
Proof.
  intros Hlin Hmiss Hl Ht Hsum.
  rewrite (initial_miss_unfold c n fd Hmiss Hl Ht Hsum), Hlin.
  cbn [andb].
  assert (Hiff : negb (n =? lastN c + 1) && (lastN c <? n)
                 && (n <? lastN c + numThreads c + 7) = true
                 <-> lastN c < n < lastN c + numThreads c + 7
                     /\ n <> lastN c + 1).
  { rewrite !andb_true_iff, negb_true_iff, Z.eqb_neq, !Z.ltb_lt. tauto. }
  destruct (negb (n =? lastN c + 1) && (lastN c <? n)
            && (n <? lastN c + numThreads c + 7)) eqn:Eb.
  - (* the batch *)
    destruct (proj1 Hiff eq_refl) as [Hw Hne].
    eexists. split; [reflexivity|]. cbn [returned calls frameData].
    split; [reflexivity|].
    split; [|split; [|split]].
    + intros _ _. split; [reflexivity|]. split; [|reflexivity].
      intros j. rewrite in_map_iff. split.
      * intros (i & Ei & Hi). injection Ei as <-.
        apply In_indices in Hi. lia.
      * intros Hj. exists j. split; [reflexivity|].
        apply In_indices. lia.
    + intros Hnot. exfalso. apply Hnot. split; assumption.
    + intros H10 H4 H15. rewrite H10, H15. split; reflexivity.
    + intros H10 H4 H50. exfalso. lia.
  - (* the single request *)
    assert (Hnot : ~ (lastN c < n < lastN c + numThreads c + 7
                      /\ n <> lastN c + 1)).
    { intros H. apply Hiff in H. discriminate H. }
    eexists. split; [reflexivity|]. cbn [returned calls frameData].
    split; [reflexivity|].
    split; [|split; [|split]].
    + intros Hw Hne. exfalso. apply Hnot. split; assumption.
    + intros _. split; reflexivity.
    + intros H10 H4 H15. exfalso. apply Hnot. lia.
    + intros H10 H4 H50. rewrite H50. split; reflexivity.
Qed.

(** C10. In the initial phase a hit returns the frame the cache holds for
    [n], leaves [lastN] and the marker as they were and calls the host
    not at all; on a miss [lastN] becomes [n]. *)
Theorem initial_phase_hit (c : CacheInstance) (n fd : Z) :
  (forall f : VSFrame,
      fst (object n (cache c)) = Some f ->
      exists a : Activation,
        cacheGetframe getFrameFilter n arInitial c fd = Some a
        /\ returned a = Some f
        /\ (exists nd : Node,
               find_node n (nodes (cache c)) = Some nd /\ frame nd = Some f)
        /\ lastN (instance a) = lastN c
        /\ frameData a = fd
        /\ calls a = [])
  /\ (fst (object n (cache c)) = None ->
      exists a : Activation,
        cacheGetframe getFrameFilter n arInitial c fd = Some a
        /\ returned a = None
        /\ lastN (instance a) = n).
Proof.
  split.
  - intros f Hhit. unfold cacheGetframe.
    assert (Hnd : exists nd : Node,
               find_node n (nodes (cache c)) = Some nd /\ frame nd = Some f).
    { unfold object, relink in Hhit.
      destruct (find_node n (nodes (cache c))) as [nd|]; [|discriminate].
      exists nd. split; [reflexivity|].
      destruct (frame nd); simpl in Hhit; [congruence | discriminate]. }
    destruct (object n (cache c)) as [g x]. simpl in Hhit. subst g.
    eexists. split; [reflexivity|]. simpl. auto.
  - intros Hmiss. unfold cacheGetframe.
    destruct (object n (cache c)) as [g x]. simpl in Hmiss. subst g.
    match goal with |- context [if ?b then _ else _] => destruct b end;
      eexists; (split; [reflexivity|]); simpl; auto.
Qed.

Lemma insert_succeeds (i : Z) (r : PVSFrameRef) (x : VSCache) :
  0 <= i -> r <> None -> exists x', insert i r x = Some (true, x').
Proof.
  intros Hi Hr. unfold insert. destruct r as [f|]; [|contradiction].
  destruct (Z.ltb_spec i 0) as [L|_]; [lia|]. eexists. reflexivity.
Qed.

Lemma insert_frames_app (l1 l2 : list Z) (x : VSCache) :
  insert_frames getFrameFilter (l1 ++ l2) x
  = match insert_frames getFrameFilter l1 x with
    | Some x1 => insert_frames getFrameFilter l2 x1
    | None => None
    end.
Proof.
  revert x. induction l1 as [|i l1 IH]; intros x; simpl; [reflexivity|].
  destruct (insert i (getFrameFilter i) x) as [[b x1]|]; [apply IH | reflexivity].
Qed.

(** The loop of the ready phase fetches and inserts consecutive
    indices. *)
Lemma fetch_frames_indices (fuel : nat) :
  forall (i n : Z) (x : VSCache),
    Z.to_nat (n - i) = fuel ->
    0 <= i -> n <= Int.int_max ->
    (forall j : Z, i <= j < n -> getFrameFilter j <> None) ->
    exists x' : VSCache,
      fetch_frames getFrameFilter fuel i n x
      = Some (x', map GetFrameFilter (indices i fuel))
      /\ insert_frames getFrameFilter (indices i fuel) x = Some x'.
Proof.
  induction fuel as [|fuel IH]; intros i n x Hfuel Hi Hn Hav.
  - exists x. split; reflexivity.
  - rewrite indices_succ. simpl.
    destruct (Z.ltb_spec i n) as [L|L]; [|lia].
    rewrite wrap_small by int_range.
    destruct (insert_succeeds i (getFrameFilter i) x Hi) as (x1 & E1).
    { apply Hav. lia. }
    rewrite E1. unfold Int.add64. rewrite wrap64_small by int_range.
    destruct (IH (i + 1) n x1) as (x2 & E2 & E3); try lia.
    { intros j Hj. apply Hav. lia. }
    exists x2. rewrite E2. split; [reflexivity | exact E3].
Qed.

(** C7. The ready phase with a batch marker fetches the frames
    [marker + 1, ..., n - 1] and inserts each into the cache, then fetches
    frame [n], inserts it and returns it; with the no-batch marker it
    fetches, inserts and returns frame [n] alone. *)
Theorem ready_phase_inserts (c : CacheInstance) (n fd : Z) :
  0 <= n <= Int.int_max ->
  getFrameFilter n <> None ->
  (-1 <= fd <= Int.int_max ->
   (forall j : Z, fd < j < n -> getFrameFilter j <> None) ->
   let between := indices (fd + 1) (Z.to_nat (n - 1 - fd)) in
   exists a : Activation,
     cacheGetframe getFrameFilter n arAllFramesReady c fd = Some a
     /\ (forall j : Z, In j between <-> fd + 1 <= j <= n - 1)
     /\ calls a = map GetFrameFilter (between ++ [n])
     /\ insert_frames getFrameFilter (between ++ [n]) (cache c)
        = Some (cache (instance a))
     /\ returned a = getFrameFilter n)
  /\ (fd = noBatch ->
      exists a : Activation,
        cacheGetframe getFrameFilter n arAllFramesReady c fd = Some a
        /\ calls a = [GetFrameFilter n]
        /\ insert_frames getFrameFilter [n] (cache c)
           = Some (cache (instance a))
        /\ returned a = getFrameFilter n).
Proof.
  intros Hn Hav. split.
  - intros Hfd Hbetween between. unfold cacheGetframe.
    destruct (Z.geb_spec fd (-1)) as [_|L]; [|lia].
    unfold Int.add64. rewrite wrap64_small by int_range.
    destruct (fetch_frames_indices (Z.to_nat (n - (fd + 1))) (fd + 1) n (cache c))
      as (x1 & E1 & E2); try lia.
    { intros j Hj. apply Hbetween. lia. }
    replace (n - (fd + 1)) with (n - 1 - fd) in E1, E2 |- * by lia.
    fold between in E1, E2. rewrite E1.
    destruct (insert_succeeds n (getFrameFilter n) x1) as (x2 & E3);
      [lia | exact Hav |].
    rewrite E3. eexists. split; [reflexivity|]. simpl.
    split.
    { intros j. subst between. rewrite In_indices. lia. }
    split; [rewrite map_app; reflexivity|].
    split; [|reflexivity].
    rewrite insert_frames_app, E2. simpl. rewrite E3. reflexivity.
  - intros ->. unfold cacheGetframe, noBatch. simpl.
    destruct (insert_succeeds n (getFrameFilter n) (cache c)) as (x2 & E3);
      [lia | exact Hav |].
    rewrite E3. eexists. split; [reflexivity|]. simpl. auto.
Qed.

End SchedulerProperties.

(** * The properties on sample states *)

Lemma recommendSize_policy_witness :
  stats_ok grow_sample /\ fst (recommendSize grow_sample) = Grow.
Proof.
  assert (Hok : stats_ok grow_sample)
    by (unfold stats_ok, Int.int_max; simpl; lia).
  split; [exact Hok|].
  destruct (recommendSize_policy grow_sample Hok)
    as (_ & _ & _ & _ & _ & _ & _ & G & _).
  apply G; reflexivity.
Defined.



Lemma initial_phase_miss_witness :
  exists a : Activation,
    cacheGetframe upstream 15 arInitial linear_instance 0 = Some a
    /\ calls a = [RequestFrameFilter 11; RequestFrameFilter 12;
                  RequestFrameFilter 13; RequestFrameFilter 14;
                  RequestFrameFilter 15]
    /\ frameData a = 10.
Proof.
  destruct (initial_phase_miss upstream linear_instance 15 0)
    as (a & E & _ & _ & _ & B & _);
    try reflexivity;
    try (unfold Int.in_range, Int.int_min, Int.int_max; simpl; lia).
  exists a. split; [exact E|]. apply B; reflexivity.
Defined.

(** C4, the claim as it is written: with 5 hits and 10 far misses
    [recommendSize] returns NoChange and the statistics are not reset. *)
Lemma recommendSize_keeps_low_total :
  fst (recommendSize low_total_sample) = NoChange
  /\ ~ (hits (snd (recommendSize low_total_sample)) = 0
        /\ nearMiss (snd (recommendSize low_total_sample)) = 0
        /\ farMiss (snd (recommendSize low_total_sample)) = 0).
Proof.
  split; [reflexivity|]. simpl. intros (H & _). discriminate H.
Qed.

Lemma recommendSize_resets_stats_witness :
  stats_ok low_total_sample
  /\ fst (recommendSize low_total_sample) = NoChange
  /\ snd (recommendSize low_total_sample) = low_total_sample.
Proof.
  assert (Hok : stats_ok low_total_sample)
    by (unfold stats_ok, Int.int_max; simpl; lia).
  split; [exact Hok|].
  apply (proj2 (recommendSize_resets_stats low_total_sample Hok)).
  simpl. lia.
Defined.

(** C5, the claim as it is written: from capacity 1 and on the
    recommendation Shrink the capacity becomes 0 while the cache still
    holds its entry, as a ghost. *)
Lemma adjustSize_shrinks_below_floor :
  fixedSize shrink_sample = false
  /\ 1 <= maxSize shrink_sample
  /\ well_formed shrink_sample = true
  /\ fst (recommendSize shrink_sample) = Shrink
  /\ nodes (adjustSize true shrink_sample) = [mkNode 0 None]
  /\ ~ (cleared (adjustSize true shrink_sample) = true
        \/ 1 <= maxSize (adjustSize true shrink_sample)).
Proof.
  repeat split; try reflexivity; try (simpl; lia).
  intros [H|H]; [discriminate H | vm_compute in H; apply H; reflexivity].
Qed.

Lemma adjustSize_needMemory_floor_witness :
  fixedSize cache_three = false
  /\ 1 <= maxSize cache_three
  /\ (cleared (adjustSize true cache_three) = true
      \/ 1 <= maxSize (adjustSize true cache_three)
      \/ (fst (recommendSize cache_three) = Shrink
          /\ maxSize cache_three <= 2
          /\ maxSize (adjustSize true cache_three) = 0)).
Proof.
  split; [reflexivity|]. split; [simpl; lia|].
  apply (adjustSize_needMemory_floor cache_three);
    [reflexivity
    | unfold Int.in_range, Int.int_min, Int.int_max; simpl; lia
    | simpl; lia].
Defined.

(** C6, the claim as it is written: a cache whose capacity a Clear has
    brought to 0 gets capacity 1 from [adjustSize(true)] after a single
    lookup. *)
Lemma adjustSize_raises_zero_capacity :
  fixedSize zero_capacity_sample = false
  /\ maxSize zero_capacity_sample = 0
  /\ maxSize (adjustSize true zero_capacity_sample) = 1
  /\ ~ (maxSize (adjustSize true zero_capacity_sample)
        <= maxSize zero_capacity_sample).
Proof.
  repeat split. vm_compute. intros H. apply H. reflexivity.
Qed.

Lemma adjustSize_needMemory_no_growth_witness :
  fixedSize grow_sample = false
  /\ fst (recommendSize grow_sample) = Grow
  /\ maxSize (adjustSize true grow_sample) <= maxSize grow_sample.
Proof.
  split; [reflexivity|]. split; [reflexivity|].
  apply (proj1 (adjustSize_needMemory_no_growth grow_sample eq_refl
                  ltac:(unfold Int.in_range, Int.int_min, Int.int_max; simpl; lia)
                  ltac:(simpl; lia))).
  left. simpl. lia.
Defined.

Lemma ready_phase_inserts_witness :
  exists a : Activation,
    cacheGetframe upstream 15 arAllFramesReady linear_instance 10 = Some a
    /\ calls a = map GetFrameFilter ([11; 12; 13; 14] ++ [15])
    /\ insert_frames upstream ([11; 12; 13; 14] ++ [15]) (cache linear_instance)
       = Some (cache (instance a))
    /\ returned a = upstream 15.
Proof.
  destruct (proj1 (ready_phase_inserts upstream linear_instance 15 10
                     ltac:(unfold Int.int_max; lia) ltac:(discriminate)))
    as (a & E & _ & C & I & R).
  - unfold Int.int_max; lia.
  - intros j _. discriminate.
  - exists a. split; [exact E|]. split; [exact C|]. split; [exact I | exact R].
Defined.

Lemma createCacheFilter_capacity_witness :
  maxSize (cache (createCacheFilter 20 20 sized_args 4)) = 64.
Proof.
  apply (proj1 (createCacheFilter_capacity 20 20 sized_args 4
                  ltac:(lia) ltac:(unfold Int.int_max; lia)) 64);
    [reflexivity | lia | unfold Int.int_max; lia].
Defined.

Lemma remove_reports_presence_witness :
  remove 9 cache_three = (false, cache_three)
  /\ fst (remove 2 cache_three) = true
  /\ find_node 2 (nodes (snd (remove 2 cache_three))) = None.
Proof.
  split.
  - apply (proj1 (remove_reports_presence cache_three 9)). reflexivity.
  - destruct (proj2 (remove_reports_presence cache_three 2)
                (mkNode 2 (Some 1002)) eq_refl) as (T & G & _).
    split; [exact T | exact G].
Defined.

Lemma initial_phase_hit_witness :
  exists a : Activation,
    cacheGetframe upstream 3 arInitial warm_instance 0 = Some a
    /\ returned a = Some 1003
    /\ lastN (instance a) = 10
    /\ calls a = [].
Proof.
  destruct (proj1 (initial_phase_hit upstream warm_instance 3 0) 1003 eq_refl)
    as (a & E & R & _ & L & _ & C).
  exists a. split; [exact E|]. split; [exact R|]. split; [exact L | exact C].
Defined.

(** * Further properties of the cache *)

(** ** What [trim] keeps *)

Lemma remove_node_last (a : list Node) (y : Node) :
  NoDup (map key (a ++ [y])) -> remove_node (key y) (a ++ [y]) = a.
Proof.
  intros H. destruct (NoDup_keys_app _ _ _ H) as [Ha _].
  rewrite remove_node_app, remove_node_notin by exact Ha.
  simpl. rewrite Z.eqb_refl. simpl. apply app_nil_r.
Qed.

(** The first loop turns the live nodes beyond the capacity into ghosts,
    from the tail of the live region on. *)
Lemma trim_frames_shape (live2 : list Node) :
  forall (c : VSCache) (live1 ghost : list Node) (max : Z),
    Split c (live1 ++ live2) ghost ->
    currentSize c - max = Z.of_nat (length live2) ->
    Split (trim_frames (length live2) max c) live1
          (map ghost_of live2 ++ ghost).
Proof.
  induction live2 as [|x l IH] using rev_ind; intros c live1 ghost max Hs Hc.
  - simpl. rewrite app_nil_r in Hs. exact Hs.
  - rewrite length_app, Nat.add_1_r in *. simpl.
    rewrite Z.gtb_ltb. destruct (Z.ltb_spec max (currentSize c)) as [_|L]; [|lia].
    rewrite app_assoc in Hs.
    pose proof (trim_step_split c (live1 ++ l) x ghost Hs) as Hs'.
    rewrite map_app, <- app_assoc. simpl.
    apply IH; [exact Hs'|].
    rewrite (sp_cur _ _ _ Hs'). pose proof (sp_cur _ _ _ Hs) as E.
    rewrite !length_app in E. simpl in E. rewrite length_app. lia.
Qed.

(** The second loop destroys the ghosts beyond the history capacity, from
    the tail on. *)
Lemma trim_history_shape (g2 : list Node) :
  forall (fuel : nat) (c : VSCache) (live g1 : list Node) (maxHistory : Z),
    Split c live (g1 ++ g2) ->
    (length g2 <= fuel)%nat ->
    Z.of_nat (length g1) <= maxHistory ->
    (g2 <> [] -> Z.of_nat (length g1) = maxHistory) ->
    Split (trim_history fuel maxHistory c) live g1.
Proof.
  induction g2 as [|y g IH] using rev_ind;
    intros fuel c live g1 mh Hs Hfuel Hle Hfull.
  - rewrite app_nil_r in Hs.
    assert (E : trim_history fuel mh c = c).
    { destruct fuel as [|fuel]; [reflexivity|]. simpl.
      destruct (lastNode (nodes c)); [|reflexivity].
      rewrite Z.gtb_ltb, (sp_hist _ _ _ Hs).
      destruct (Z.ltb_spec mh (Z.of_nat (length g1))); [lia | reflexivity]. }
    rewrite E. exact Hs.
  - rewrite length_app, Nat.add_1_r in Hfuel.
    destruct fuel as [|fuel]; [lia|]. simpl.
    assert (Hn : nodes c = (live ++ g1 ++ g) ++ [y]).
    { rewrite (sp_nodes _ _ _ Hs), <- !app_assoc. reflexivity. }
    rewrite Hn, lastNode_app.
    assert (Hfull' : Z.of_nat (length g1) = mh).
    { apply Hfull. destruct g; discriminate. }
    rewrite Z.gtb_ltb, (sp_hist _ _ _ Hs), !length_app.
    simpl. destruct (Z.ltb_spec mh (Z.of_nat (length g1 + (length g + 1))));
      [|lia].
    assert (Hin : In y (nodes c)).
    { rewrite Hn. apply in_or_app. right. left. reflexivity. }
    pose proof (unlink_split c live (g1 ++ g ++ [y]) y Hs Hin) as Hs'.
    pose proof (sp_keys _ _ _ Hs) as Hk. rewrite Hn in Hk.
    assert (Hk2 : NoDup (map key ((g1 ++ g) ++ [y]))).
    { replace ((live ++ g1 ++ g) ++ [y]) with (live ++ ((g1 ++ g) ++ [y])) in Hk
        by (rewrite <- !app_assoc; reflexivity).
      rewrite map_app in Hk. apply NoDup_app_remove_l in Hk. exact Hk. }
    assert (Hk3 : ~ In (key y) (map key live)).
    { pose proof (sp_keys _ _ _ Hs) as Hk'. rewrite Hn in Hk'.
      destruct (NoDup_keys_app _ _ _ Hk') as [Ha _].
      intros Hl. apply Ha. rewrite !map_app. apply in_or_app. left. exact Hl. }
    rewrite remove_node_notin in Hs' by exact Hk3.
    rewrite app_assoc, remove_node_last in Hs' by exact Hk2.
    apply IH; [exact Hs' | lia | exact Hle |].
    intros _. exact Hfull'.
Qed.

Lemma trim_split_shape (c : VSCache) (live ghost : list Node)
    (max maxHistory : Z) :
  Split c live ghost -> 0 <= max -> 0 <= maxHistory ->
  let a := Nat.min (length live) (Z.to_nat max) in
  let gs := map ghost_of (skipn a live) ++ ghost in
  let b := Nat.min (length gs) (Z.to_nat maxHistory) in
  Split (trim max maxHistory c) (firstn a live) (firstn b gs).
Proof.
  intros Hs Hmax Hmh a gs b. unfold trim.
  pose proof (sp_cur _ _ _ Hs) as Hc.
  assert (Hs1 : Split (trim_frames (Z.to_nat (currentSize c - max)) max c)
                      (firstn a live) gs).
  { destruct (Z.le_gt_cases (currentSize c) max) as [L|L].
    - replace (Z.to_nat (currentSize c - max)) with O by lia.
      assert (Ea : a = length live) by (subst a; lia).
      subst gs. rewrite Ea, firstn_all, skipn_all. exact Hs.
    - replace (Z.to_nat (currentSize c - max)) with (length (skipn a live))
        by (rewrite length_skipn; subst a; lia).
      apply trim_frames_shape.
      + rewrite firstn_skipn. exact Hs.
      + rewrite length_skipn. subst a. lia. }
  set (c1 := trim_frames _ max c) in *.
  rewrite <- (firstn_skipn b gs) in Hs1.
  apply (trim_history_shape (skipn b gs) _ c1 (firstn a live) (firstn b gs)).
  - exact Hs1.
  - rewrite (sp_nodes _ _ _ Hs1), !length_app. lia.
  - rewrite length_firstn. subst b. lia.
  - intros Hne. rewrite length_firstn. subst b.
    assert (length (skipn (Nat.min (length gs) (Z.to_nat maxHistory)) gs) <> 0)%nat.
    { intros E. apply length_zero_iff_nil in E. contradiction. }
    rewrite length_skipn in H. lia.
Qed.

(** X1. [trim] keeps the most recently used entries: of the live nodes
    the first [max] keep their frames, the others become ghosts in place,
    and of the ghosts so obtained the first [maxHistory] are kept; the
    order of the list is not changed. *)
Theorem trim_keeps_most_recent (c : VSCache) (max maxHistory : Z) :
  well_formed c = true -> 0 <= max -> 0 <= maxHistory ->
  let live := live_region (nodes c) in
  let a := Nat.min (length live) (Z.to_nat max) in
  let gs := map ghost_of (skipn a live) ++ ghost_region (nodes c) in
  let b := Nat.min (length gs) (Z.to_nat maxHistory) in
  let c' := trim max maxHistory c in
  nodes c' = firstn a live ++ firstn b gs
  /\ live_region (nodes c') = firstn a live
  /\ ghost_region (nodes c') = firstn b gs
  /\ weakpoint c' = option_map key (head (firstn b gs)).
Proof.
  intros Hwf Hmax Hmh live a gs b c'.
  pose proof (trim_split_shape c _ _ max maxHistory
                (well_formed_split c Hwf) Hmax Hmh) as Hs.
  fold live a gs b c' in Hs.
  destruct (regions_of_split _ _ (sp_live _ _ _ Hs) (sp_ghost _ _ _ Hs))
    as [El Eg].
  rewrite (sp_nodes _ _ _ Hs), El, Eg. repeat split.
  apply (sp_weak _ _ _ Hs).
Qed.

Lemma trim_within_capacity (c : VSCache) (max maxHistory : Z) :
  currentSize c <= max -> historySize c <= maxHistory ->
  trim max maxHistory c = c.
Proof.
  intros Hc Hh. unfold trim.
  replace (Z.to_nat (currentSize c - max)) with O by lia. simpl.
  destruct (length (nodes c)) as [|fuel]; [reflexivity|]. simpl.
  destruct (lastNode (nodes c)); [|reflexivity].
  rewrite Z.gtb_ltb.
  destruct (Z.ltb_spec maxHistory (historySize c)); [lia | reflexivity].
Qed.

(** X2. Trimming twice to the same capacities is trimming once, and a
    cache that is within the capacities is left as it is. *)
Theorem trim_idempotent (c : VSCache) (max maxHistory : Z) :
  well_formed c = true -> 0 <= max -> 0 <= maxHistory ->
  trim max maxHistory (trim max maxHistory c) = trim max maxHistory c
  /\ (currentSize c <= max -> historySize c <= maxHistory ->
      trim max maxHistory c = c).
Proof.
  intros Hwf Hmax Hmh. split.
  - destruct (trim_split c _ _ max maxHistory (well_formed_split c Hwf) Hmax Hmh)
      as (l & g & _ & Hc & Hh).
    apply trim_within_capacity; assumption.
  - apply trim_within_capacity.
Qed.

(** ** What [remove] and [insert] leave *)

Lemma remove_split_shape (k : Z) (c : VSCache) (live ghost : list Node) :
  Split c live ghost ->
  Split (snd (remove k c)) (remove_node k live) (remove_node k ghost).
Proof.
  intros Hs. unfold remove.
  destruct (find_node k (nodes c)) as [n|] eqn:Ef; simpl.
  - destruct (find_node_Some _ _ _ Ef) as [Hin <-].
    apply unlink_split; assumption.
  - apply find_node_None in Ef. rewrite (sp_nodes _ _ _ Hs), map_app in Ef.
    rewrite !remove_node_notin; [exact Hs | |];
      intros H; apply Ef; apply in_or_app; auto.
Qed.

Lemma split_length (c : VSCache) (live ghost : list Node) :
  Split c live ghost ->
  Z.of_nat (length (nodes c)) = currentSize c + historySize c.
Proof.
  intros Hs. rewrite (sp_nodes _ _ _ Hs), (sp_cur _ _ _ Hs), (sp_hist _ _ _ Hs).
  rewrite length_app. lia.
Qed.

(** X3. [remove] keeps the cache well formed, raises neither counter,
    and a second [remove] of the same key finds nothing and changes
    nothing. *)
Theorem remove_keeps_invariants (c : VSCache) (k : Z) :
  well_formed c = true ->
  let c' := snd (remove k c) in
  well_formed c' = true
  /\ currentSize c' <= currentSize c
  /\ historySize c' <= historySize c
  /\ currentSize c' + historySize c'
     = currentSize c + historySize c - (if fst (remove k c) then 1 else 0)
  /\ remove k c' = (false, c').
Proof.
  intros Hwf c'. subst c'. apply well_formed_split in Hwf.
  pose proof (remove_split_shape k c _ _ Hwf) as Hs.
  split; [eapply split_well_formed; exact Hs|].
  pose proof (filter_length_le (fun m => negb (key m =? k))
                (live_region (nodes c))) as L1.
  pose proof (filter_length_le (fun m => negb (key m =? k))
                (ghost_region (nodes c))) as L2.
  fold (remove_node k (live_region (nodes c))) in L1.
  fold (remove_node k (ghost_region (nodes c))) in L2.
  rewrite (sp_cur _ _ _ Hs), (sp_hist _ _ _ Hs).
  rewrite (sp_cur _ _ _ Hwf), (sp_hist _ _ _ Hwf).
  split; [lia|]. split; [lia|]. split.
  - pose proof (split_length _ _ _ Hs) as E1.
    pose proof (split_length _ _ _ Hwf) as E2.
    rewrite (sp_cur _ _ _ Hs), (sp_hist _ _ _ Hs) in E1.
    rewrite (sp_cur _ _ _ Hwf), (sp_hist _ _ _ Hwf) in E2.
    rewrite <- E1, <- E2. unfold remove.
    destruct (find_node k (nodes c)) as [n|] eqn:Ef; simpl; [|lia].
    destruct (find_node_Some _ _ _ Ef) as [Hin Hk].
    rewrite unlink_nodes.
    pose proof (remove_node_length (nodes c) n (sp_keys _ _ _ Hwf) Hin). lia.
  - assert (Ha : find_node k (nodes (snd (remove k c))) = None).
    { apply find_node_None. unfold remove.
      destruct (find_node k (nodes c)) as [n|] eqn:Ef; simpl.
      - destruct (find_node_Some _ _ _ Ef) as [_ Hk].
        rewrite unlink_nodes, Hk. apply remove_node_absent.
      - apply find_node_None. exact Ef. }
    unfold remove at 1. rewrite Ha. reflexivity.
Qed.

Lemma insert_split_shape (k : Z) (f : VSFrame) (c : VSCache)
    (live ghost : list Node) :
  Split c live ghost ->
  0 <= k -> 0 <= maxSize c -> 0 <= maxHistorySize c ->
  Z.of_nat (length (nodes c)) < Int.int_max ->
  let l1 := mkNode k (Some f) :: remove_node k live in
  let a := Nat.min (length l1) (Z.to_nat (maxSize c)) in
  let gs := map ghost_of (skipn a l1) ++ remove_node k ghost in
  let b := Nat.min (length gs) (Z.to_nat (maxHistorySize c)) in
  exists c' : VSCache,
    insert k (Some f) c = Some (true, c')
    /\ Split c' (firstn a l1) (firstn b gs)
    /\ same_config c c'.
Proof.
  intros Hs Hk Hms Hmh Hroom l1 a gs b.
  pose proof (remove_split_shape k c _ _ Hs) as Hs1.
  destruct (remove_split k c _ _ Hs) as (_ & _ & _ & Hfresh & Hle & Hcfg).
  unfold insert. destruct (Z.ltb_spec k 0) as [L|_]; [lia|].
  eexists. split; [reflexivity|].
  set (c1 := snd (remove k c)) in *.
  set (c2 := set_currentSize _ _).
  assert (Hs2 : Split c2 l1 (remove_node k ghost)).
  { apply push_split; [exact Hs1 | exact Hfresh | lia]. }
  assert (Hcfg2 : same_config c c2).
  { eapply same_config_trans; [exact Hcfg | repeat split]. }
  destruct Hcfg2 as (E1 & E2 & E3).
  split.
  - rewrite E1, E2. apply trim_split_shape; [exact Hs2 | lia | lia].
  - eapply same_config_trans; [|apply trim_config].
    eapply same_config_trans; [exact Hcfg | repeat split].
Qed.

(** X4. Inserting a key the cache does not hold, while there is room for
    another frame, links the new node in front and evicts nothing. *)
Theorem insert_with_room (k : Z) (f : VSFrame) (c : VSCache) :
  find_node k (nodes c) = None ->
  0 <= k ->
  Int.in_range (currentSize c) -> Int.in_range (maxSize c) ->
  currentSize c < maxSize c ->
  historySize c <= maxHistorySize c ->
  exists c' : VSCache,
    insert k (Some f) c = Some (true, c')
    /\ nodes c' = mkNode k (Some f) :: nodes c
    /\ currentSize c' = currentSize c + 1
    /\ historySize c' = historySize c
    /\ weakpoint c' = weakpoint c.
Proof.
  intros Hfind Hk Hc Hm Hroom Hh. unfold insert, remove.
  destruct (Z.ltb_spec k 0) as [L|_]; [lia|].
  rewrite Hfind. simpl. rewrite add_small by int_range.
  rewrite trim_within_capacity by (simpl; lia).
  eexists. split; [reflexivity|]. simpl. auto.
Qed.


(** X6. A well-formed cache of capacity 0 holds no frame: right after
    [insert] into it no node has a frame and [object] of the key just
    inserted returns null. *)
Theorem insert_capacity_zero (k : Z) (f : VSFrame) (c : VSCache) :
  well_formed c = true ->
  0 <= k -> maxSize c = 0 -> 0 <= maxHistorySize c ->
  Z.of_nat (length (nodes c)) < Int.int_max ->
  exists c' : VSCache,
    insert k (Some f) c = Some (true, c')
    /\ currentSize c' = 0
    /\ Forall (fun n => frame n = None) (nodes c')
    /\ fst (object k c') = None.
Proof.
  intros Hwf Hk Hms Hmh Hroom. apply well_formed_split in Hwf.
  destruct (insert_split_shape k f c _ _ Hwf Hk ltac:(lia) Hmh Hroom)
    as (c' & E & Hs & _).
  exists c'. split; [exact E|].
  rewrite Hms in Hs. simpl Z.to_nat in Hs. rewrite Nat.min_0_r in Hs.
  simpl firstn in Hs. simpl skipn in Hs.
  assert (Hall : Forall (fun n => frame n = None) (nodes c')).
  { rewrite (sp_nodes _ _ _ Hs). simpl.
    eapply Forall_impl; [|exact (sp_ghost _ _ _ Hs)].
    intros n. unfold has_frame. destruct (frame n); [discriminate | reflexivity]. }
  split; [rewrite (sp_cur _ _ _ Hs); reflexivity|].
  split; [exact Hall|].
  unfold object, relink.
  destruct (find_node k (nodes c')) as [n|] eqn:Ef; [|reflexivity].
  destruct (find_node_Some _ _ _ Ef) as [Hin _].
  rewrite Forall_forall in Hall. rewrite (Hall n Hin). reflexivity.
Qed.

(** X7. Inserting a new key into a cache that is full turns the least
    recently used live node into a ghost, in place, and makes it the
    boundary; with room in the history no node is destroyed, and with the
    history full the last node of the list is the one destroyed. *)
Theorem insert_evicts_lru (k : Z) (f : VSFrame) (c : VSCache)
    (live : list Node) (x : Node) :
  well_formed c = true ->
  live_region (nodes c) = live ++ [x] ->
  find_node k (nodes c) = None ->
  0 <= k -> currentSize c = maxSize c ->
  historySize c <= maxHistorySize c ->
  Z.of_nat (length (nodes c)) < Int.int_max ->
  let ghost := ghost_region (nodes c) in
  exists c' : VSCache,
    insert k (Some f) c = Some (true, c')
    /\ (historySize c < maxHistorySize c ->
        nodes c' = mkNode k (Some f) :: live ++ ghost_of x :: ghost
        /\ weakpoint c' = Some (key x))
    /\ (historySize c = maxHistorySize c ->
        nodes c' = mkNode k (Some f) :: live ++ removelast (ghost_of x :: ghost))
    /\ live_region (nodes c') = mkNode k (Some f) :: live.
Proof.
  intros Hwf Hlive Hfind Hk Hfull Hh Hroom ghost.
  apply well_formed_split in Hwf. fold ghost in Hwf.
  pose proof (sp_cur _ _ _ Hwf) as Ec.
  pose proof (sp_hist _ _ _ Hwf) as Eh.
  rewrite Hlive in Hwf, Ec. rewrite length_app in Ec. simpl in Ec.
  destruct (insert_split_shape k f c _ _ Hwf Hk ltac:(lia) ltac:(lia) Hroom)
    as (c' & E & Hs & _).
  exists c'. split; [exact E|].
  apply find_node_None in Hfind.
  rewrite (sp_nodes _ _ _ Hwf), map_app, in_app_iff in Hfind.
  rewrite !remove_node_notin in Hs by tauto.
  assert (Ea : Nat.min (length (mkNode k (Some f) :: live ++ [x]))
                 (Z.to_nat (maxSize c)) = S (length live)).
  { cbn [length]. rewrite length_app. cbn [length]. lia. }
  rewrite Ea in Hs. simpl firstn in Hs. simpl skipn in Hs.
  rewrite firstn_app, firstn_all, Nat.sub_diag in Hs. simpl firstn in Hs.
  rewrite skipn_app, skipn_all, Nat.sub_diag in Hs.
  cbn [skipn map app] in Hs. rewrite app_nil_r in Hs.
  pose proof (sp_nodes _ _ _ Hs) as En.
  destruct (regions_of_split _ _ (sp_live _ _ _ Hs) (sp_ghost _ _ _ Hs))
    as [El _].
  rewrite <- En in El.
  split; [|split; [|exact El]].
  - intros Hlt.
    assert (Eb : Nat.min (length (ghost_of x :: ghost))
                   (Z.to_nat (maxHistorySize c))
                 = length (ghost_of x :: ghost)) by (cbn [length]; lia).
    rewrite Eb, firstn_all in Hs.
    split; [apply (sp_nodes _ _ _ Hs) | apply (sp_weak _ _ _ Hs)].
  - intros Heq. rewrite En. cbn [app]. do 2 f_equal.
    rewrite removelast_firstn_len. f_equal. cbn [length]. lia.
Qed.

(** * Further properties of the resize policy *)

(** X8. What a recommendation tells about the lookups since the last
    decision: Clear, that there were none; Shrink, that all of at least 30
    were far misses; Grow, that of at least 30 at least two, and 5%, were
    near misses; NoChange, that there were fewer than 30, or at least 30
    with less than 5% near misses and one hit or near miss. *)
Theorem recommendSize_reading (c : VSCache) :
  stats_ok c ->
  let total := hits c + nearMiss c + farMiss c in
  match fst (recommendSize c) with
  | Clear => hits c = 0 /\ nearMiss c = 0 /\ farMiss c = 0
  | Shrink => hits c = 0 /\ nearMiss c = 0 /\ 30 <= farMiss c
  | Grow => 30 <= total /\ 2 <= nearMiss c /\ total <= nearMiss c * 20
  | NoChange =>
      0 < total
      /\ (total < 30
          \/ (nearMiss c * 20 < total /\ 0 < hits c + nearMiss c))
  end.
Proof.
  intros Hok total.
  pose proof (recommendSize_cases c Hok) as H. fold total in H.
  destruct Hok as (Hh & Hn & Hf & _ & _).
  destruct H as [(?&E)|[(?&E)|[(?&?&E)|[(?&?&?&E)|(?&?&?&E)]]]];
    rewrite E; simpl; subst total; lia.
Qed.

Lemma recommendSize_state (c : VSCache) :
  snd (recommendSize c) = c \/ snd (recommendSize c) = clearStats c.
Proof.
  unfold recommendSize.
  repeat match goal with |- context [if ?b then _ else _] => destruct b end;
    simpl; auto.
Qed.

(** X9. [recommendSize] touches nothing but the statistics: entries,
    boundary, counters, capacities and the fixed-size flag are those of
    before, and the statistics are either those of before or all zero. *)
Theorem recommendSize_only_statistics (c : VSCache) :
  let c' := snd (recommendSize c) in
  nodes c' = nodes c /\ weakpoint c' = weakpoint c
  /\ currentSize c' = currentSize c /\ historySize c' = historySize c
  /\ maxSize c' = maxSize c /\ maxHistorySize c' = maxHistorySize c
  /\ fixedSize c' = fixedSize c
  /\ ((hits c' = hits c /\ nearMiss c' = nearMiss c /\ farMiss c' = farMiss c)
      \/ (hits c' = 0 /\ nearMiss c' = 0 /\ farMiss c' = 0)).
Proof.
  intros c'. subst c'.
  destruct (recommendSize_state c) as [-> | ->]; simpl; repeat split; auto.
Qed.

Lemma setMaxFrames_invariants (m : Z) (c : VSCache) :
  well_formed c = true -> 0 <= m -> 0 <= maxHistorySize c ->
  well_formed (setMaxFrames m c) = true
  /\ within_capacity (setMaxFrames m c)
  /\ same_config (set_maxSize m c) (setMaxFrames m c).
Proof.
  intros Hwf Hm Hmh. unfold setMaxFrames.
  assert (Hwf' : well_formed (set_maxSize m c) = true) by exact Hwf.
  destruct (trim_split (set_maxSize m c) _ _ m (maxHistorySize c)
              (well_formed_split _ Hwf') Hm Hmh) as (l & g & Hs & Hc & Hh).
  pose proof (trim_config m (maxHistorySize c) (set_maxSize m c)) as Hcfg.
  simpl. split; [eapply split_well_formed; exact Hs|].
  split; [|exact Hcfg].
  destruct Hcfg as (E1 & E2 & _). unfold within_capacity.
  rewrite E1, E2. simpl. split; assumption.
Qed.

Lemma adjustSize_normal_cases (c : VSCache) :
  fixedSize c = false ->
  0 <= maxSize c -> maxSize c + 2 <= Int.int_max ->
  let m := maxSize c in
  let c' := adjustSize false c in
  match fst (recommendSize c) with
  | Clear => cleared c' = true /\ maxSize c' = Z.max (m - 2) 0
  | Shrink => maxSize c' = Z.max (m - 1) 0
  | NoChange => c' = snd (recommendSize c) /\ maxSize c' = m
  | Grow => maxSize c' = m + 2
  end.
Proof.
  intros Hfix Hm Hr m c'. subst c'. unfold adjustSize. rewrite Hfix. simpl.
  assert (Hcfg : maxSize (snd (recommendSize c)) = m).
  { destruct (recommendSize_state c) as [-> | ->]; reflexivity. }
  destruct (recommendSize c) as [a c1]. simpl in *. unfold getMaxFrames.
  destruct a.
  - auto.
  - rewrite setMaxFrames_maxSize, Hcfg. apply add_small. int_range.
  - rewrite setMaxFrames_maxSize, Hcfg. rewrite sub_small by int_range.
    reflexivity.
  - rewrite setMaxFrames_maxSize. simpl. rewrite Hcfg.
    rewrite sub_small by int_range. split; [|reflexivity].
    apply setMaxFrames_clear. lia.
Qed.

(** X10. One call of [adjustSize] moves the capacity by 2 at most and
    never below 0; the capacity grows only by 2 on the recommendation Grow
    without memory pressure, or from 0 to 1 under memory pressure. *)
Theorem adjustSize_step_bound (needMemory : bool) (c : VSCache) :
  fixedSize c = false ->
  0 <= maxSize c -> maxSize c + 2 <= Int.int_max ->
  let m := maxSize c in
  let m' := maxSize (adjustSize needMemory c) in
  0 <= m' /\ m - 2 <= m' <= m + 2
  /\ (m < m' ->
      (needMemory = false /\ fst (recommendSize c) = Grow /\ m' = m + 2)
      \/ (needMemory = true /\ m = 0 /\ m' = 1)).
Proof.
  intros Hfix Hm Hr m m'. subst m'. destruct needMemory.
  - pose proof (adjustSize_needMemory_cases c Hfix ltac:(int_range) Hm) as H.
    simpl in H. fold m in H.
    destruct (fst (recommendSize c));
      [destruct H as [E _] | destruct H as [_ E] | | destruct H as [_ E]];
      try rewrite E; try rewrite H; fold m; repeat split; try lia;
      intros L; right; repeat split; lia.
  - pose proof (adjustSize_normal_cases c Hfix Hm Hr) as H.
    simpl in H. fold m in H.
    destruct (fst (recommendSize c)) eqn:Ea;
      [destruct H as [_ E] | | | destruct H as [_ E]];
      try rewrite E; try rewrite H; fold m; repeat split; try lia;
      intros L; left; repeat split; lia.
Qed.

Lemma setMaxFrames_config (m : Z) (c : VSCache) :
  maxHistorySize (setMaxFrames m c) = maxHistorySize c
  /\ fixedSize (setMaxFrames m c) = fixedSize c
  /\ hits (setMaxFrames m c) = hits c
  /\ nearMiss (setMaxFrames m c) = nearMiss c
  /\ farMiss (setMaxFrames m c) = farMiss c.
Proof.
  unfold setMaxFrames.
  destruct (trim_config (maxSize (set_maxSize m c))
              (maxHistorySize (set_maxSize m c)) (set_maxSize m c))
    as (_ & E2 & E3 & E4 & E5 & E6).
  rewrite E2, E3, E4, E5, E6. repeat split.
Qed.

(** X11. [adjustSize] keeps the invariants: a well-formed cache within
    its capacities stays so; the history capacity and the fixed-size flag
    are not changed; a fixed-size cache is not changed at all. *)
Theorem adjustSize_keeps_invariants (needMemory : bool) (c : VSCache) :
  well_formed c = true -> within_capacity c ->
  0 <= maxSize c -> maxSize c + 2 <= Int.int_max -> 0 <= maxHistorySize c ->
  let c' := adjustSize needMemory c in
  well_formed c' = true /\ within_capacity c'
  /\ maxHistorySize c' = maxHistorySize c
  /\ fixedSize c' = fixedSize c
  /\ (fixedSize c = true -> c' = c).
Proof.
  intros Hwf Hcap Hm Hr Hmh c'. subst c'. unfold adjustSize.
  destruct (fixedSize c) eqn:Hfix; cbn [negb]; [auto|].
  assert (H1 : well_formed (snd (recommendSize c)) = true
               /\ within_capacity (snd (recommendSize c))
               /\ maxSize (snd (recommendSize c)) = maxSize c
               /\ maxHistorySize (snd (recommendSize c)) = maxHistorySize c
               /\ fixedSize (snd (recommendSize c)) = false).
  { destruct (recommendSize_state c) as [-> | ->]; auto. }
  destruct (recommendSize c) as [a c1]. cbn [snd] in H1.
  destruct H1 as (Hwf1 & Hcap1 & Em & Eh & Ef).
  assert (Hset : forall (m : Z) (x : VSCache),
             well_formed x = true -> 0 <= m ->
             maxHistorySize x = maxHistorySize c -> fixedSize x = false ->
             well_formed (setMaxFrames m x) = true
             /\ within_capacity (setMaxFrames m x)
             /\ maxHistorySize (setMaxFrames m x) = maxHistorySize c
             /\ fixedSize (setMaxFrames m x) = false
             /\ (false = true -> setMaxFrames m x = c)).
  { intros m x Hx Hm0 Exh Exf.
    destruct (setMaxFrames_invariants m x Hx Hm0 ltac:(lia)) as (W & C & _).
    destruct (setMaxFrames_config m x) as (E2 & E3 & _).
    rewrite E2, E3. repeat split; try assumption; try apply C. discriminate. }
  assert (Hkeep : well_formed c1 = true /\ within_capacity c1
                  /\ maxHistorySize c1 = maxHistorySize c
                  /\ fixedSize c1 = false /\ (false = true -> c1 = c)).
  { repeat split; try assumption; try apply Hcap1. discriminate. }
  unfold getMaxFrames.
  destruct needMemory, a; cbn [negb].
  - (* memory pressure, NoChange *)
    destruct (maxSize c1 <=? 1);
      apply Hset; try assumption; try reflexivity; try lia.
  - exact Hkeep.
  - apply Hset; try assumption; lia.
  - apply Hset; try reflexivity; try assumption; lia.
  - exact Hkeep.
  - apply Hset; try assumption. rewrite Em, add_small by int_range. lia.
  - apply Hset; try assumption; lia.
  - apply Hset; try reflexivity; try assumption; lia.
Qed.

Lemma adjustSize_after_decision (needMemory : bool) (c : VSCache) :
  fixedSize c = false ->
  stats_ok c -> 30 <= hits c + nearMiss c + farMiss c ->
  let c' := adjustSize needMemory c in
  fixedSize c' = false /\ hits c' = 0 /\ nearMiss c' = 0 /\ farMiss c' = 0.
Proof.
  intros Hfix Hok Ht c'. subst c'. unfold adjustSize. rewrite Hfix.
  cbn [negb].
  assert (H : exists a, a <> Clear /\ recommendSize c = (a, clearStats c)).
  { destruct (recommendSize_cases c Hok)
      as [(?&E)|[(?&E)|[(?&?&E)|[(?&?&?&E)|(?&?&?&E)]]]];
      try lia; eexists; (split; [|exact E]); discriminate. }
  destruct H as (a & Ha & ->).
  assert (Hset : forall (m : Z) (x : VSCache),
             fixedSize x = false -> hits x = 0 -> nearMiss x = 0 ->
             farMiss x = 0 ->
             fixedSize (setMaxFrames m x) = false
             /\ hits (setMaxFrames m x) = 0
             /\ nearMiss (setMaxFrames m x) = 0
             /\ farMiss (setMaxFrames m x) = 0).
  { intros m x E1 E2 E3 E4.
    destruct (setMaxFrames_config m x) as (_ & F1 & F2 & F3 & F4).
    rewrite F1, F2, F3, F4. auto. }
  destruct needMemory, a; cbn [negb]; try contradiction;
    try (apply Hset; try exact Hfix; reflexivity);
    try (repeat split; try exact Hfix; reflexivity).
  destruct (getMaxFrames (clearStats c) <=? 1);
    apply Hset; try exact Hfix; reflexivity.
Qed.

(** X12. Resizing a cache that has seen no lookup clears it, so two calls
    of [adjustSize] with no lookup in between, the first on a sample of 30
    or more, leave the cache cleared. *)
Theorem adjustSize_idle_clears (b1 b2 : bool) (c : VSCache) :
  fixedSize c = false ->
  (hits c = 0 -> nearMiss c = 0 -> farMiss c = 0 ->
   cleared (adjustSize b1 c) = true)
  /\ (stats_ok c -> 30 <= hits c + nearMiss c + farMiss c ->
      cleared (adjustSize b2 (adjustSize b1 c)) = true).
Proof.
  intros Hfix.
  assert (Idle : forall (b : bool) (x : VSCache),
             fixedSize x = false ->
             hits x = 0 -> nearMiss x = 0 -> farMiss x = 0 ->
             cleared (adjustSize b x) = true).
  { intros b x Hx Eh En Ef. unfold adjustSize, recommendSize.
    rewrite Hx, Eh, En, Ef. cbn [negb].
    change (Int.add (Int.add 0 0) 0 =? 0) with true. cbv iota.
    destruct b; cbn [negb]; apply setMaxFrames_clear; lia. }
  split; [apply Idle; exact Hfix|].
  intros Hok Ht.
  destruct (adjustSize_after_decision b1 c Hfix Hok Ht) as (F & E1 & E2 & E3).
  apply Idle; assumption.
Qed.

(** * Further properties of the scheduler *)

Lemma insert_config (k : Z) (r : PVSFrameRef) (c c' : VSCache) (b : bool) :
  insert k r c = Some (b, c') -> same_config c c'.
Proof.
  unfold insert. destruct r as [f|]; [|discriminate].
  destruct (k <? 0); [discriminate|]. intros [= _ <-].
  eapply same_config_trans; [|apply trim_config].
  unfold remove. destruct (find_node k (nodes c)) as [n|]; simpl.
  - destruct (unlink_config n c) as (?&?&?&?&?&?). repeat split; assumption.
  - repeat split.
Qed.

Lemma indices_snoc (lo : Z) (k : nat) :
  indices lo (S k) = indices lo k ++ [lo + Z.of_nat k].
Proof.
  unfold indices. rewrite seq_S, map_app. reflexivity.
Qed.

Lemma forallb_request_frames (fuel : nat) (i n : Z) :
  forallb is_request (request_frames fuel i n) = true.
Proof.
  revert i. induction fuel as [|fuel IH]; intros i; simpl; [reflexivity|].
  destruct (i <=? n); simpl; auto.
Qed.

Section SchedulerFurther.

Variable getFrameFilter : Z -> PVSFrameRef.

Lemma fetch_frames_discipline (fuel : nat) :
  forall (i n : Z) (x x' : VSCache) (l : list HostCall),
    fetch_frames getFrameFilter fuel i n x = Some (x', l) ->
    forallb is_fetch l = true /\ same_config x x'.
Proof.
  induction fuel as [|fuel IH]; intros i n x x' l; simpl.
  - intros [= <- <-]. split; [reflexivity | apply same_config_refl].
  - destruct (i <? n).
    + destruct (insert (Int.wrap i) (getFrameFilter (Int.wrap i)) x)
        as [[b x1]|] eqn:E1; [|discriminate].
      destruct (fetch_frames getFrameFilter fuel (Int.add64 i 1) n x1)
        as [[x2 l2]|] eqn:E2; [|discriminate].
      intros [= <- <-]. destruct (IH _ _ _ _ _ E2) as [F C].
      split; [exact F|].
      eapply same_config_trans; [eapply insert_config; exact E1 | exact C].
    + intros [= <- <-]. split; [reflexivity | apply same_config_refl].
Qed.

(** X13. The discipline of an activation: the initial phase only
    requests frames and the ready phase only fetches them; the ready phase
    leaves [lastN] and the marker alone; any other activation reason does
    nothing; and no activation changes the capacities or the fixed-size
    flag of the cache, the thread count or the linearization flag. *)
Theorem activation_discipline (n fd : Z) (reason : ActivationReason)
    (c : CacheInstance) (a : Activation) :
  cacheGetframe getFrameFilter n reason c fd = Some a ->
  numThreads (instance a) = numThreads c
  /\ makeLinear (instance a) = makeLinear c
  /\ maxSize (cache (instance a)) = maxSize (cache c)
  /\ maxHistorySize (cache (instance a)) = maxHistorySize (cache c)
  /\ fixedSize (cache (instance a)) = fixedSize (cache c)
  /\ match reason with
     | arInitial => forallb is_request (calls a) = true
     | arAllFramesReady =>
         forallb is_fetch (calls a) = true
         /\ lastN (instance a) = lastN c /\ frameData a = fd
     | arError => a = mkActivation None c fd []
     end.
Proof.
  unfold cacheGetframe. destruct reason.
  - assert (Hx : maxSize (snd (object n (cache c))) = maxSize (cache c)
                 /\ maxHistorySize (snd (object n (cache c)))
                    = maxHistorySize (cache c)
                 /\ fixedSize (snd (object n (cache c))) = fixedSize (cache c)).
    { unfold object, relink.
      destruct (find_node n (nodes (cache c))) as [nd|]; [|repeat split].
      destruct (frame nd); repeat split. }
    destruct (object n (cache c)) as [f x]. cbn [snd] in Hx.
    destruct Hx as (E1 & E2 & E3).
    destruct f as [f|].
    + intros [= <-]. simpl. repeat split; auto.
    + match goal with |- context [if ?b then _ else _] => destruct b end;
        intros [= <-]; simpl; repeat split; auto.
      apply forallb_request_frames.
  - destruct (if fd >=? -1
              then fetch_frames getFrameFilter
                     (Z.to_nat (n - Int.add64 fd 1)) (Int.add64 fd 1) n (cache c)
              else Some (cache c, [])) as [[x1 l]|] eqn:Eb; [|discriminate].
    destruct (insert n (getFrameFilter n) x1) as [[b x2]|] eqn:Ei;
      [|discriminate].
    intros [= <-]. simpl.
    assert (Hl : forallb is_fetch l = true /\ same_config (cache c) x1).
    { destruct (fd >=? -1).
      - eapply fetch_frames_discipline. exact Eb.
      - injection Eb as <- <-. split; [reflexivity | apply same_config_refl]. }
    destruct Hl as [Hl Hc1].
    pose proof (same_config_trans _ _ _ Hc1 (insert_config _ _ _ _ _ Ei))
      as (E1 & E2 & E3 & _).
    repeat split; auto.
    rewrite forallb_app, Hl. reflexivity.
  - intros [= <-]. simpl. repeat split; auto.
Qed.

(** X14. On a miss the initial phase requests at least one frame and at
    most [max(1, numThreads + 6)], the last of them being the frame asked
    for. *)
Theorem initial_phase_batch_size (c : CacheInstance) (n fd : Z) :
  fst (object n (cache c)) = None ->
  Int.in_range (lastN c) -> 0 <= numThreads c ->
  lastN c + numThreads c + 7 <= Int.int_max ->
  exists (a : Activation) (l : list HostCall),
    cacheGetframe getFrameFilter n arInitial c fd = Some a
    /\ calls a = l ++ [RequestFrameFilter n]
    /\ Z.of_nat (length (calls a)) <= Z.max 1 (numThreads c + 6)
    /\ (makeLinear c = false -> l = []).
Proof.
  intros Hmiss Hl Ht Hsum.
  rewrite (initial_miss_unfold getFrameFilter c n fd Hmiss Hl Ht Hsum).
  destruct (makeLinear c && negb (n =? lastN c + 1) && (lastN c <? n)
            && (n <? lastN c + numThreads c + 7)) eqn:Eb.
  - rewrite !andb_true_iff in Eb. destruct Eb as [[[Lin _] L1] L2].
    apply Z.ltb_lt in L1, L2.
    assert (Ek : Z.to_nat (n - lastN c) = S (Z.to_nat (n - lastN c - 1)))
      by lia.
    eexists. exists (map RequestFrameFilter
                       (indices (lastN c + 1) (Z.to_nat (n - lastN c - 1)))).
    split; [reflexivity|]. cbn [calls]. split; [|split].
    + rewrite Ek, indices_snoc, map_app. simpl. do 3 f_equal. lia.
    + rewrite length_map. unfold indices. rewrite length_map, length_seq. lia.
    + rewrite Lin. discriminate.
  - eexists. exists []. split; [reflexivity|]. cbn [calls].
    split; [reflexivity|]. split; [simpl; lia | reflexivity].
Qed.

Lemma insert_None (k : Z) (r : PVSFrameRef) (x : VSCache) :
  insert k r x = None <-> r = None \/ k < 0.
Proof.
  unfold insert. destruct r as [f|].
  - destruct (Z.ltb_spec k 0); split; try tauto; try discriminate.
    intros [H0|H0]; [discriminate | lia].
  - tauto.
Qed.

Lemma ready_batch_unfold (c : CacheInstance) (n fd : Z) :
  0 <= n <= Int.int_max -> getFrameFilter n <> None ->
  -1 <= fd <= Int.int_max ->
  (forall j : Z, fd < j < n -> getFrameFilter j <> None) ->
  exists (x1 x2 : VSCache),
    insert_frames getFrameFilter (indices (fd + 1) (Z.to_nat (n - 1 - fd)))
      (cache c) = Some x1
    /\ insert n (getFrameFilter n) x1 = Some (true, x2)
    /\ cacheGetframe getFrameFilter n arAllFramesReady c fd
       = Some (mkActivation (getFrameFilter n) (set_cache x2 c) fd
                 (map GetFrameFilter
                    (indices (fd + 1) (Z.to_nat (n - 1 - fd)) ++ [n]))).
Proof.
  intros Hn Hav Hfd Hbetween. unfold cacheGetframe.
  destruct (Z.geb_spec fd (-1)) as [_|L]; [|lia].
  unfold Int.add64. rewrite wrap64_small by int_range.
  destruct (fetch_frames_indices getFrameFilter
              (Z.to_nat (n - (fd + 1))) (fd + 1) n (cache c))
    as (x1 & E1 & E2); try lia.
  { intros j Hj. apply Hbetween. lia. }
  replace (n - (fd + 1)) with (n - 1 - fd) in E1, E2 |- * by lia.
  rewrite E1.
  destruct (insert_succeeds n (getFrameFilter n) x1) as (x2 & E3);
    [lia | exact Hav |].
  rewrite E3. exists x1, x2. rewrite map_app. auto.
Qed.

Lemma ready_single_unfold (c : CacheInstance) (n fd : Z) :
  0 <= n -> getFrameFilter n <> None -> fd < -1 ->
  exists x2 : VSCache,
    insert n (getFrameFilter n) (cache c) = Some (true, x2)
    /\ cacheGetframe getFrameFilter n arAllFramesReady c fd
       = Some (mkActivation (getFrameFilter n) (set_cache x2 c) fd
                 [GetFrameFilter n]).
Proof.
  intros Hn Hav Hfd. unfold cacheGetframe.
  destruct (Z.geb_spec fd (-1)) as [L|_]; [lia|].
  destruct (insert_succeeds n (getFrameFilter n) (cache c)) as (x2 & E3);
    [lia | exact Hav |].
  rewrite E3. exists x2. auto.
Qed.

Lemma call_index_requests (l : list Z) :
  map call_index (map RequestFrameFilter l) = l.
Proof. rewrite map_map. apply map_id. Qed.

Lemma call_index_fetches (l : list Z) :
  map call_index (map GetFrameFilter l) = l.
Proof. rewrite map_map. apply map_id. Qed.

(** X15. The two phases agree: when the ready phase runs on what the
    initial phase has left (the instance and the marker), it fetches
    exactly the frames the initial phase has requested, in the same order,
    and returns the upstream frame [n]. *)
Theorem request_fetch_match (c : CacheInstance) (n fd : Z) :
  fst (object n (cache c)) = None ->
  -1 <= lastN c -> 0 <= numThreads c ->
  lastN c + numThreads c + 7 <= Int.int_max ->
  0 <= n <= Int.int_max ->
  (forall j : Z, lastN c < j <= n \/ j = n -> getFrameFilter j <> None) ->
  exists a b : Activation,
    cacheGetframe getFrameFilter n arInitial c fd = Some a
    /\ cacheGetframe getFrameFilter n arAllFramesReady
         (instance a) (frameData a) = Some b
    /\ map call_index (calls b) = map call_index (calls a)
    /\ returned b = getFrameFilter n.
Proof.
  intros Hmiss Hl Ht Hsum Hn Hav.
  rewrite (initial_miss_unfold getFrameFilter c n fd Hmiss
             ltac:(int_range) Ht Hsum).
  destruct (makeLinear c && negb (n =? lastN c + 1) && (lastN c <? n)
            && (n <? lastN c + numThreads c + 7)) eqn:Eb.
  - rewrite !andb_true_iff in Eb. destruct Eb as [[[_ _] L1] L2].
    apply Z.ltb_lt in L1, L2.
    destruct (ready_batch_unfold
                (set_lastN n (set_cache (snd (object n (cache c))) c))
                n (lastN c) Hn) as (x1 & x2 & _ & _ & E).
    { apply Hav. auto. }
    { int_range. }
    { intros j Hj. apply Hav. left. lia. }
    eexists. eexists. split; [reflexivity|].
    cbn [instance frameData calls]. rewrite E.
    split; [reflexivity|]. cbn [calls returned]. split; [|reflexivity].
    rewrite call_index_requests, call_index_fetches.
    replace (Z.to_nat (n - lastN c)) with (S (Z.to_nat (n - 1 - lastN c)))
      by lia.
    rewrite indices_snoc. do 2 f_equal. lia.
  - destruct (ready_single_unfold
                (set_lastN n (set_cache (snd (object n (cache c))) c))
                n noBatch) as (x2 & _ & E);
      [lia | apply Hav; auto | unfold noBatch; lia |].
    eexists. eexists. split; [reflexivity|].
    cbn [instance frameData calls]. rewrite E.
    split; [reflexivity|]. cbn [calls returned]. split; reflexivity.
Qed.

Lemma fetch_frames_fails (fuel : nat) :
  forall (i n : Z) (x : VSCache),
    Z.to_nat (n - i) = fuel -> 0 <= i -> n <= Int.int_max ->
    (fetch_frames getFrameFilter fuel i n x = None
     <-> exists j : Z, i <= j < n /\ getFrameFilter j = None).
Proof.
  induction fuel as [|fuel IH]; intros i n x Hfuel Hi Hn.
  - simpl. split; [discriminate|]. intros (j & Hj & _). lia.
  - simpl. destruct (Z.ltb_spec i n) as [L|L]; [|lia].
    rewrite wrap_small by int_range.
    unfold Int.add64. rewrite wrap64_small by int_range.
    destruct (insert i (getFrameFilter i) x) as [[b x1]|] eqn:E1.
    + assert (Hi' : getFrameFilter i <> None).
      { intros E. assert (insert i (getFrameFilter i) x = None)
          by (apply insert_None; auto). congruence. }
      specialize (IH (i + 1) n x1 ltac:(lia) ltac:(lia) Hn).
      destruct (fetch_frames getFrameFilter fuel (i + 1) n x1) as [[x2 l]|].
      * split; [discriminate|]. intros (j & Hj & Ej).
        destruct (Z.eq_dec j i) as [->|Hne]; [contradiction|].
        destruct IH as [_ IH]. discriminate IH. exists j. split; [lia | exact Ej].
      * split; [|reflexivity]. intros _.
        destruct (proj1 IH eq_refl) as (j & Hj & Ej).
        exists j. split; [lia | exact Ej].
    + apply insert_None in E1. destruct E1 as [E1|E1]; [|lia].
      split; [|reflexivity]. intros _. exists i. split; [lia | exact E1].
Qed.

(** X16. The ready phase trips an assertion of [insert] exactly when the
    upstream has no frame for [n] or, with a batch marker, for one of the
    indices between the marker and [n]. *)
Theorem ready_phase_failure (c : CacheInstance) (n fd : Z) :
  0 <= n <= Int.int_max -> fd <= Int.int_max ->
  (cacheGetframe getFrameFilter n arAllFramesReady c fd = None
   <-> getFrameFilter n = None
       \/ (-1 <= fd /\ exists j : Z, fd < j < n /\ getFrameFilter j = None)).
Proof.
  intros Hn Hfd. unfold cacheGetframe.
  destruct (Z.geb_spec fd (-1)) as [L|L].
  - unfold Int.add64. rewrite wrap64_small by int_range.
    pose proof (fetch_frames_fails (Z.to_nat (n - (fd + 1))) (fd + 1) n
                  (cache c) eq_refl ltac:(lia) ltac:(lia)) as Hf.
    destruct (fetch_frames getFrameFilter (Z.to_nat (n - (fd + 1)))
                (fd + 1) n (cache c)) as [[x1 l]|].
    + destruct (insert n (getFrameFilter n) x1) as [[b x2]|] eqn:Ei.
      * split; [discriminate|]. intros [E|(_ & j & Hj & Ej)].
        -- assert (insert n (getFrameFilter n) x1 = None)
             by (apply insert_None; auto). congruence.
        -- destruct Hf as [_ Hf]. discriminate Hf.
           exists j. split; [lia | exact Ej].
      * split; [|reflexivity]. intros _.
        apply insert_None in Ei. destruct Ei as [Ei|Ei]; [auto | lia].
    + split; [|reflexivity]. intros _. right. split; [lia|].
      destruct (proj1 Hf eq_refl) as (j & Hj & Ej).
      exists j. split; [lia | exact Ej].
  - destruct (insert n (getFrameFilter n) (cache c)) as [[b x2]|] eqn:Ei.
    + split; [discriminate|]. intros [E|(H0 & _)]; [|lia].
      assert (insert n (getFrameFilter n) (cache c) = None)
        by (apply insert_None; auto). congruence.
    + split; [|reflexivity]. intros _.
      apply insert_None in Ei. destruct Ei as [Ei|Ei]; [auto | lia].
Qed.




End SchedulerFurther.

(** * Further properties of the creation *)

Lemma cleared_well_formed (c : VSCache) :
  cleared c = true -> well_formed c = true.
Proof.
  unfold cleared, well_formed.
  destruct (nodes c); [|discriminate].
  destruct (weakpoint c); [discriminate|].
  rewrite !andb_true_iff, !Z.eqb_eq. intros [[[[-> ->] _] _] _].
  simpl. repeat split.
Qed.

(** X18. The filter that [createCacheFilter] makes: its cache is empty
    and well formed and has a capacity of at least 1; without a positive
    [size] and with linearization the capacity is at least twice the
    window [numThreads + 7] of the scheduler, so more than the frames of
    one batch; the thread count and the fixed-size flag are those
    given. *)
Theorem createCacheFilter_instance (sizeDefault historyDefault : Z)
    (args : CacheArgs) (threads : Z) :
  0 <= threads -> (threads + 7) * 2 <= Int.int_max ->
  let c := createCacheFilter sizeDefault historyDefault args threads in
  1 <= maxSize (cache c)
  /\ maxSize (cache c) <= Int.int_max
  /\ cleared (cache c) = true
  /\ well_formed (cache c) = true
  /\ numThreads c = threads
  /\ fixedSize (cache c)
     = match arg_fixed args with Some v => negb (v =? 0) | None => false end
  /\ (match arg_size args with Some s => 0 <? s | None => false end = false ->
      makeLinear c = true ->
      2 * (numThreads c + extraFrames) <= maxSize (cache c)).
Proof.
  intros Ht Hr c.
  destruct (createCacheFilter_unfold sizeDefault historyDefault args threads)
    as (Hl & Hn & Hm).
  fold c in Hl, Hn, Hm.
  assert (Hshape : exists m : Z,
             0 <= m
             /\ cache c = setMaxFrames m
                            (VSCache_new sizeDefault historyDefault
                               (negb (fst (mapGetInt (arg_fixed args)) =? 0)))).
  { subst c. unfold createCacheFilter.
    destruct (mapGetIntSaturated (arg_size args)) as [size err].
    destruct (negb err && (size >? 0)) eqn:Eg.
    - exists size. split; [|reflexivity].
      rewrite andb_true_iff, Z.gtb_ltb, Z.ltb_lt in Eg.
      destruct Eg as [_ Eg]. lia.
    - match goal with |- context [if ?b then _ else _] => destruct b end;
        eexists; (split; [|reflexivity]);
        try (cbn [numThreads set_makeLinear set_numThreads];
             rewrite (add_small 20 threads) by int_range);
        lia. }
  destruct Hshape as (m & Hm0 & Ec).
  assert (Hcap : 1 <= maxSize (cache c) <= Int.int_max
                 /\ (match arg_size args with
                     | Some s => 0 <? s | None => false end = false ->
                     makeLinear c = true ->
                     2 * (threads + extraFrames) <= maxSize (cache c))).
  { rewrite Hm, Hl. unfold mapGetIntSaturated, mapGetInt, extraFrames.
    rewrite (add_small threads), add_small, mul_small by int_range.
    destruct (arg_size args) as [s|]; cbn [negb andb].
    - rewrite Z.gtb_ltb.
      destruct (Z.ltb_spec 0 s) as [L|L];
        destruct (Z.ltb_spec 0 (Z.max Int.int_min (Z.min Int.int_max s)))
          as [L'|L'];
        try (exfalso; unfold Int.int_min, Int.int_max in *; lia).
      + split; [unfold Int.int_min, Int.int_max in *; lia | discriminate].
      + split.
        * destruct (negb _); unfold Int.int_max in *; lia.
        * intros _ ->. lia.
    - split.
      + destruct (negb _); unfold Int.int_max in *; lia.
      + intros _ ->. lia. }
  destruct Hcap as ((H1 & H2) & H3).
  split; [exact H1|]. split; [exact H2|].
  assert (Hcl : cleared (cache c) = true).
  { rewrite Ec. unfold VSCache_new. apply setMaxFrames_clear. exact Hm0. }
  split; [exact Hcl|].
  split; [apply cleared_well_formed; exact Hcl|].
  split; [exact Hn|]. split; [|rewrite Hn; exact H3].
  rewrite Ec.
  destruct (setMaxFrames_config m
              (VSCache_new sizeDefault historyDefault
                 (negb (fst (mapGetInt (arg_fixed args)) =? 0))))
    as (_ & E & _).
  rewrite E. simpl. destruct (arg_fixed args); reflexivity.
Qed.

(** * The further properties on sample states *)

Lemma trim_keeps_most_recent_witness :
  well_formed cache_three = true
  /\ nodes (trim 1 5 cache_three)
     = [mkNode 3 (Some 1003); mkNode 2 None; mkNode 1 None].
Proof.
  split; [reflexivity|].
  exact (proj1 (trim_keeps_most_recent cache_three 1 5 eq_refl
                  ltac:(lia) ltac:(lia))).
Defined.

Lemma trim_idempotent_witness :
  well_formed cache_three = true
  /\ trim 1 0 (trim 1 0 cache_three) = trim 1 0 cache_three.
Proof.
  split; [reflexivity|].
  exact (proj1 (trim_idempotent cache_three 1 0 eq_refl
                  ltac:(lia) ltac:(lia))).
Defined.

Lemma remove_keeps_invariants_witness :
  well_formed cache_three = true
  /\ well_formed (snd (remove 2 cache_three)) = true
  /\ remove 2 (snd (remove 2 cache_three)) = (false, snd (remove 2 cache_three)).
Proof.
  split; [reflexivity|].
  destruct (remove_keeps_invariants cache_three 2 eq_refl)
    as (W & _ & _ & _ & R).
  split; [exact W | exact R].
Defined.

Lemma insert_with_room_witness :
  exists c' : VSCache,
    insert 4 (Some 1004) (VSCache_new 20 20 false) = Some (true, c')
    /\ nodes c' = [mkNode 4 (Some 1004)]
    /\ currentSize c' = 1.
Proof.
  destruct (insert_with_room 4 1004 (VSCache_new 20 20 false))
    as (c' & E & N & C & _);
    try reflexivity;
    try (unfold Int.in_range, Int.int_min, Int.int_max; simpl; lia).
  exists c'. split; [exact E|]. split; [exact N | exact C].
Defined.


Lemma insert_capacity_zero_witness :
  exists c' : VSCache,
    insert 4 (Some 1004) (VSCache_new 0 20 false) = Some (true, c')
    /\ currentSize c' = 0
    /\ fst (object 4 c') = None.
Proof.
  destruct (insert_capacity_zero 4 1004 (VSCache_new 0 20 false) eq_refl)
    as (c' & E & C & _ & O);
    try reflexivity; try (simpl; unfold Int.int_max; lia).
  exists c'. split; [exact E|]. split; [exact C | exact O].
Defined.

Lemma insert_evicts_lru_witness :
  exists c' : VSCache,
    insert 4 (Some 1004) cache_three = Some (true, c')
    /\ nodes c' = [mkNode 4 (Some 1004); mkNode 3 (Some 1003);
                   mkNode 2 None; mkNode 1 None]
    /\ weakpoint c' = Some 2.
Proof.
  destruct (insert_evicts_lru 4 1004 cache_three
              [mkNode 3 (Some 1003)] (mkNode 2 (Some 1002)) eq_refl)
    as (c' & E & H & _);
    try reflexivity; try (simpl; unfold Int.int_max; lia).
  exists c'. split; [exact E|]. apply H. simpl. lia.
Defined.

Lemma recommendSize_reading_witness :
  stats_ok scan_sample
  /\ fst (recommendSize scan_sample) = Shrink
  /\ hits scan_sample = 0 /\ nearMiss scan_sample = 0
  /\ 30 <= farMiss scan_sample.
Proof.
  assert (Hok : stats_ok scan_sample)
    by (unfold stats_ok, Int.int_max; simpl; lia).
  split; [exact Hok|]. split; [reflexivity|].
  exact (recommendSize_reading scan_sample Hok).
Defined.

Lemma adjustSize_step_bound_witness :
  fixedSize grow_sample = false
  /\ maxSize (adjustSize false grow_sample) = 22
  /\ 0 <= maxSize (adjustSize false grow_sample)
  /\ maxSize grow_sample - 2 <= maxSize (adjustSize false grow_sample)
     <= maxSize grow_sample + 2.
Proof.
  split; [reflexivity|]. split; [reflexivity|].
  destruct (adjustSize_step_bound false grow_sample eq_refl
              ltac:(simpl; lia) ltac:(simpl; unfold Int.int_max; lia))
    as (P & B & _).
  split; [exact P | exact B].
Defined.

Lemma adjustSize_keeps_invariants_witness :
  well_formed cache_three = true /\ within_capacity cache_three
  /\ well_formed (adjustSize true cache_three) = true
  /\ within_capacity (adjustSize true cache_three).
Proof.
  assert (Hc : within_capacity cache_three)
    by (unfold within_capacity; simpl; lia).
  split; [reflexivity|]. split; [exact Hc|].
  destruct (adjustSize_keeps_invariants true cache_three eq_refl Hc
              ltac:(simpl; lia) ltac:(simpl; unfold Int.int_max; lia)
              ltac:(simpl; lia))
    as (W & C & _).
  split; [exact W | exact C].
Defined.

Lemma adjustSize_idle_clears_witness :
  cleared (adjustSize false cache_three) = true
  /\ stats_ok scan_sample
  /\ cleared (adjustSize true (adjustSize false scan_sample)) = true.
Proof.
  assert (Hok : stats_ok scan_sample)
    by (unfold stats_ok, Int.int_max; simpl; lia).
  split.
  - apply (proj1 (adjustSize_idle_clears false false cache_three eq_refl));
      reflexivity.
  - split; [exact Hok|].
    apply (proj2 (adjustSize_idle_clears false true scan_sample eq_refl));
      [exact Hok | simpl; lia].
Defined.

Lemma activation_discipline_witness :
  exists a : Activation,
    cacheGetframe upstream 15 arAllFramesReady linear_instance 10 = Some a
    /\ forallb is_fetch (calls a) = true
    /\ lastN (instance a) = 10
    /\ maxSize (cache (instance a)) = 20.
Proof.
  destruct (cacheGetframe upstream 15 arAllFramesReady linear_instance 10)
    as [a|] eqn:E; [|vm_compute in E; discriminate E].
  exists a. split; [reflexivity|].
  destruct (activation_discipline upstream 15 10 arAllFramesReady
              linear_instance a E) as (_ & _ & M & _ & _ & F & L & _).
  split; [exact F|]. split; [exact L | exact M].
Defined.

Lemma initial_phase_batch_size_witness :
  exists (a : Activation) (l : list HostCall),
    cacheGetframe upstream 15 arInitial linear_instance 0 = Some a
    /\ calls a = l ++ [RequestFrameFilter 15]
    /\ Z.of_nat (length (calls a)) <= 10.
Proof.
  destruct (initial_phase_batch_size upstream linear_instance 15 0)
    as (a & l & E & C & B & _);
    try reflexivity;
    try (unfold Int.in_range, Int.int_min, Int.int_max; simpl; lia).
  exists a, l. split; [exact E|]. split; [exact C | exact B].
Defined.

Lemma request_fetch_match_witness :
  exists a b : Activation,
    cacheGetframe upstream 15 arInitial linear_instance 0 = Some a
    /\ cacheGetframe upstream 15 arAllFramesReady (instance a) (frameData a)
       = Some b
    /\ map call_index (calls b) = map call_index (calls a)
    /\ returned b = upstream 15.
Proof.
  apply (request_fetch_match upstream linear_instance 15 0);
    try reflexivity;
    try (unfold Int.int_max; simpl; lia).
  intros j _. discriminate.
Defined.

Lemma ready_phase_failure_witness :
  cacheGetframe upstream_gap 15 arAllFramesReady linear_instance 10 = None.
Proof.
  apply (proj2 (ready_phase_failure upstream_gap linear_instance 15 10
                  ltac:(unfold Int.int_max; lia)
                  ltac:(unfold Int.int_max; lia))).
  right. split; [lia|]. exists 13. split; [lia | reflexivity].
Defined.


Lemma createCacheFilter_instance_witness :
  1 <= maxSize (cache (createCacheFilter 20 20 sized_args 4))
  /\ cleared (cache (createCacheFilter 20 20 sized_args 4)) = true.
Proof.
  destruct (createCacheFilter_instance 20 20 sized_args 4
              ltac:(lia) ltac:(unfold Int.int_max; lia))
    as (P & _ & C & _).
  split; [exact P | exact C].
Defined.
